(** * Named-pipe request client: a shallow embedding of
    [openjd/adaptor_runtime/_named_pipe/named_pipe_helper.py]

    The module talks to the operating system (CreateFile, ReadFile,
    WriteFile, SetNamedPipeHandleState, the clock) and to the [json]
    library.  The embedding threads an explicit [World] through every
    call: the world holds the clock, the scripted answers of the
    operating system and of the peer, and the trace of the calls made
    so far.  Python exceptions are values of the type [exn]; a call
    either returns or raises ([result]).

    Conventions of the embedding
    - a Python [str] is a Rocq [string] holding the UTF-8 encoding of
      the text, so [message.encode("utf-8")] lists the bytes of the
      string and [data.decode("utf-8")] succeeds exactly on well-formed
      UTF-8;
    - Python [bytes] are [list byte];
    - time is counted in whole milliseconds ([Z]); [time.sleep(0.1)]
      advances the clock by [100];
    - [winerror] constants carry their Windows values. *)

From Stdlib Require Import ZArith List Bool Lia.
From Stdlib.Strings Require Import String Ascii Byte.
From Stdlib Require Import DecimalString.
Import ListNotations.

Local Open Scope string_scope.
Local Open Scope Z_scope.

(** ** Bytes and text *)

Definition bytes := list byte.

(** The character ["] and a way to write it inside a literal: [dq]
    turns every ['] of its argument into ["]. *)
Definition dquote : ascii := ascii_of_N 34.

Fixpoint dq (s : string) : string :=
  match s with
  | EmptyString => EmptyString
  | String c rest => String (if Ascii.eqb c "'" then dquote else c) (dq rest)
  end.

(** [str(n)] for a Python [int]. *)
Definition str_of_int (z : Z) : string :=
  NilZero.string_of_int (Z.to_int z).

(** *** UTF-8

    The strict decoder of Python accepts exactly the well-formed byte
    sequences of the Unicode standard (table 3-7): no overlong forms,
    no surrogates, nothing above U+10FFFF. *)

Definition in_range (lo hi : N) (b : byte) : bool :=
  (N.leb lo (Byte.to_N b) && N.leb (Byte.to_N b) hi)%bool.

Definition is_cont : byte -> bool := in_range 128 191.

Fixpoint utf8_well_formed (l : bytes) : bool :=
  match l with
  | [] => true
  | b0 :: t0 =>
    if in_range 0 127 b0 then utf8_well_formed t0
    else match t0 with
    | [] => false
    | b1 :: t1 =>
      if in_range 194 223 b0 then is_cont b1 && utf8_well_formed t1
      else match t1 with
      | [] => false
      | b2 :: t2 =>
        if in_range 224 224 b0
        then in_range 160 191 b1 && is_cont b2 && utf8_well_formed t2
        else if in_range 225 236 b0 || in_range 238 239 b0
        then is_cont b1 && is_cont b2 && utf8_well_formed t2
        else if in_range 237 237 b0
        then in_range 128 159 b1 && is_cont b2 && utf8_well_formed t2
        else match t2 with
        | [] => false
        | b3 :: t3 =>
          if in_range 240 240 b0
          then in_range 144 191 b1 && is_cont b2 && is_cont b3
               && utf8_well_formed t3
          else if in_range 241 243 b0
          then is_cont b1 && is_cont b2 && is_cont b3 && utf8_well_formed t3
          else if in_range 244 244 b0
          then in_range 128 143 b1 && is_cont b2 && is_cont b3
               && utf8_well_formed t3
          else false
        end
      end
    end
  end%bool.

(** ** Exceptions *)

(** [pywintypes.error]: the triple [(winerror, funcname, strerror)]. *)
Record pywin_error := mk_pywin_error {
  winerror : Z;
  funcname : string;
  strerror : string
}.

Inductive exn :=
| PywinError (e : pywin_error)
    (* pywintypes.error, as raised by pywin32 *)
| PipeDisconnectedException (code : Z) (func msg : string) (message : string)
    (* attributes winerror, funcname, strerror and message *)
| NamedPipeTimeoutError (duration : Z) (error : exn)
| IOError (message : string)
| UnicodeDecodeError (data : bytes)
    (* raised by bytes.decode *)
| TypeError (message : string)
    (* raised by json.dumps on a value it cannot serialise *)
| JSONDecodeError (doc : string)
    (* raised by json.loads on a text that is not valid JSON *)
| ValueError (message : string)
    (* raised by json.loads, as on an integer of too many digits *)
| RecursionError (message : string).
    (* raised by json.loads on a text nested too deep *)

Inductive result (A : Type) :=
| Return (a : A)
| Raise (e : exn).
Arguments Return {A} a.
Arguments Raise {A} e.

(** [str.encode("utf-8")] and [bytes.decode("utf-8")]. *)
Definition encode_utf8 (s : string) : bytes := list_byte_of_string s.

Definition decode_utf8 (data : bytes) : result string :=
  if utf8_well_formed data then Return (string_of_list_byte data)
  else Raise (UnicodeDecodeError data).

(** ** Constants of [winerror] *)

Module winerror_consts.
Definition NO_ERROR : Z := 0.
Definition ERROR_FILE_NOT_FOUND : Z := 2.
Definition ERROR_INVALID_HANDLE : Z := 6.
Definition ERROR_BROKEN_PIPE : Z := 109.
Definition ERROR_PIPE_BUSY : Z := 231.
Definition ERROR_PIPE_NOT_CONNECTED : Z := 233.
Definition ERROR_MORE_DATA : Z := 234.
End winerror_consts.
Import winerror_consts.

(** [x in [a, b, ...]] on integers. *)
Definition Z_in (x : Z) (l : list Z) : bool := existsb (Z.eqb x) l.

(** ** The error classifier *)

(** [PipeDisconnectedException.__init__] *)
Definition new_PipeDisconnectedException (error : pywin_error) : exn :=
  PipeDisconnectedException
    (winerror error) (funcname error) (strerror error)
    ("An error occurred: " ++ strerror error
     ++ " (Error code: " ++ str_of_int (winerror error)
     ++ ") in function " ++ funcname error).

(** [NamedPipeHelper._handle_pipe_exception]: it never returns; the
    value is the exception it raises.  The bare [raise] re-raises the
    exception being handled, which is [e] itself. *)
Definition _handle_pipe_exception (e : pywin_error) : exn :=
  if Z_in (winerror e)
       [ERROR_BROKEN_PIPE; ERROR_PIPE_NOT_CONNECTED; ERROR_INVALID_HANDLE]
  then new_PipeDisconnectedException e
  else PywinError e.

(** ** The world: operating system, peer and clock *)

Definition HANDLE := Z.

(** One call of [win32file.CreateFile]: the time it takes and what it
    gives, an error or a handle. *)
Record open_attempt := mk_open_attempt {
  latency : Z;
  outcome : pywin_error + HANDLE
}.

(** One call of [win32file.ReadFile]: a pair [(return_code, data)] or
    an error. *)
Inductive read_outcome :=
| ReadOk (return_code : Z) (data : bytes)
| ReadErr (e : pywin_error).

Inductive log_record :=
| LogReadinessTimeout (duration timeout_in_seconds : Z)
| LogCouldNotOpen (e : pywin_error).

Inductive event :=
| EvCreateFile (pipe_name : string)
| EvSleep (ms : Z)
| EvLogError (r : log_record)
| EvSetNamedPipeHandleState (h : HANDLE)
| EvWriteFile (h : HANDLE) (data : bytes)
| EvReadFile (h : HANDLE) (size : Z)
| EvClose (h : HANDLE).

(** The scripts are what the environment will answer; [clock],
    [opens_made], [incoming] and [trace] change as the program runs.
    An empty [incoming] is a peer that sends nothing more: the read
    blocks for ever. *)
Record World := mk_World {
  clock : Z;
  create_file_script : nat -> open_attempt;
  opens_made : nat;
  set_state_script : option pywin_error;
  write_file_script : bytes -> option pywin_error;
  incoming : list read_outcome;
  trace : list event
}.

Definition log_event (ev : event) (w : World) : World :=
  mk_World (clock w) (create_file_script w) (opens_made w)
           (set_state_script w) (write_file_script w) (incoming w)
           (trace w ++ [ev]).

Definition advance (ms : Z) (w : World) : World :=
  mk_World (clock w + ms) (create_file_script w) (opens_made w)
           (set_state_script w) (write_file_script w) (incoming w)
           (trace w).

Definition count_open (w : World) : World :=
  mk_World (clock w) (create_file_script w) (S (opens_made w))
           (set_state_script w) (write_file_script w) (incoming w)
           (trace w).

Definition set_incoming (l : list read_outcome) (w : World) : World :=
  mk_World (clock w) (create_file_script w) (opens_made w)
           (set_state_script w) (write_file_script w) l
           (trace w).

(** ** A state and exception monad

    [None] is a call that never returns. *)

Definition M (A : Type) : Type := World -> option (result A * World).

Definition ret {A} (a : A) : M A := fun w => Some (Return a, w).

Definition raise {A} (e : exn) : M A := fun w => Some (Raise e, w).

Definition bind {A B} (m : M A) (k : A -> M B) : M B :=
  fun w =>
    match m w with
    | None => None
    | Some (Return a, w') => k a w'
    | Some (Raise e, w') => Some (Raise e, w')
    end.

Definition lift {A} (r : result A) : M A := fun w => Some (r, w).

Definition rbind {A B} (r : result A) (k : A -> result B) : result B :=
  match r with
  | Return a => k a
  | Raise e => Raise e
  end.

(** [try: body except pywintypes.error as e: handler e] *)
Definition try_except_pywin {A} (body : M A) (handler : pywin_error -> M A)
  : M A :=
  fun w =>
    match body w with
    | Some (Raise (PywinError e), w') => handler e w'
    | r => r
    end.

(** [try: body finally: cleanup]; the cleanups of this module do not
    raise. *)
Definition try_finally {A} (body : M A) (cleanup : M unit) : M A :=
  fun w =>
    match body w with
    | None => None
    | Some (r, w') =>
      match cleanup w' with
      | None => None
      | Some (Return _, w'') => Some (r, w'')
      | Some (Raise e, w'') => Some (Raise e, w'')
      end
    end.

Declare Scope monad_scope.
Delimit Scope monad_scope with monad.
Notation "x <- m ;; k" := (bind m (fun x => k))
  (at level 100, m at next level, right associativity) : monad_scope.
Notation "m ;; k" := (bind m (fun _ => k))
  (at level 100, right associativity) : monad_scope.
Local Open Scope monad_scope.

(** ** Primitives *)

Module time.
Definition time : M Z := fun w => Some (Return (clock w), w).
Definition sleep (ms : Z) : M unit :=
  fun w => Some (Return tt, log_event (EvSleep ms) (advance ms w)).
End time.

Module _logger.
Definition error (r : log_record) : M unit :=
  fun w => Some (Return tt, log_event (EvLogError r) w).
End _logger.

Module win32file.
Definition CreateFile (pipe_name : string) : M HANDLE :=
  fun w =>
    let a := create_file_script w (opens_made w) in
    let w' := log_event (EvCreateFile pipe_name)
                (count_open (advance (latency a) w)) in
    match outcome a with
    | inl e => Some (Raise (PywinError e), w')
    | inr h => Some (Return h, w')
    end.

Definition ReadFile (handle : HANDLE) (size : Z) : M (Z * bytes) :=
  fun w =>
    match incoming w with
    | [] => None
    | r :: rest =>
      let w' := log_event (EvReadFile handle size) (set_incoming rest w) in
      match r with
      | ReadOk return_code data => Some (Return (return_code, data), w')
      | ReadErr e => Some (Raise (PywinError e), w')
      end
    end.

Definition WriteFile (handle : HANDLE) (data : bytes) : M unit :=
  fun w =>
    let w' := log_event (EvWriteFile handle data) w in
    match write_file_script w data with
    | Some e => Some (Raise (PywinError e), w')
    | None => Some (Return tt, w')
    end.
End win32file.

Module win32pipe.
Definition SetNamedPipeHandleState (handle : HANDLE) : M unit :=
  fun w =>
    let w' := log_event (EvSetNamedPipeHandleState handle) w in
    match set_state_script w with
    | Some e => Some (Raise (PywinError e), w')
    | None => Some (Return tt, w')
    end.
End win32pipe.

(** [handle.close()] *)
Definition close (handle : HANDLE) : M unit :=
  fun w => Some (Return tt, log_event (EvClose handle) w).

(** ** Python values that reach [json]

    Floats are left out.  [PObject] is any object [json.dumps] has no
    encoding for. *)
#[warnings="-register-all"]
Inductive pyval :=
| PNone
| PBool (b : bool)
| PInt (z : Z)
| PStr (s : string)
| PList (l : list pyval)
| PDict (d : list (string * pyval))
| PObject (type_name : string).

(** A [Dict] keeps its items in insertion order. *)
Definition Dict := list (string * pyval).

(** Truth value of an [Optional[Dict]]: [None] and [{}] are false. *)
Definition truthy (d : option Dict) : bool :=
  match d with
  | None => false
  | Some [] => false
  | Some (_ :: _) => true
  end.

Definition as_pyval (d : option Dict) : pyval :=
  match d with
  | None => PNone
  | Some d => PDict d
  end.

(** [d[key] = value] for a key that [d] does not hold yet. *)
Definition setitem (d : Dict) (key : string) (value : pyval) : Dict :=
  (d ++ [(key, value)])%list.

(** What one turn of a [while] loop leaves: go round again with the
    loop's variable, or return. *)
Inductive loop_step (S A : Type) :=
| Continue (s : S)
| Done (a : A).
Arguments Continue {S A} s.
Arguments Done {S A} a.

(** ** [NamedPipeHelper] *)

Section NamedPipeHelper.

(** The [json] library and the constant of [server_config] are
    not part of this module. *)
Variable json_dumps : pyval -> result string.
Variable json_loads : string -> result pyval.
Variable NAMED_PIPE_BUFFER_SIZE : Z.

(** The body of [while True] in [read_from_pipe]. *)
Definition read_from_pipe_step (handle : HANDLE) (data_parts : list string)
  : M (loop_step (list string) string) :=
  try_except_pywin
    (rd <- win32file.ReadFile handle NAMED_PIPE_BUFFER_SIZE ;;
     let '(return_code, data) := rd in
     part <- lift (decode_utf8 data) ;;
     let data_parts := (data_parts ++ [part])%list in
     if return_code =? ERROR_MORE_DATA then ret (Continue data_parts)
     else if return_code =? NO_ERROR
     then ret (Done (String.concat EmptyString data_parts))
     else raise (IOError
       ("Got error when reading from the Named Pipe with error code: "
        ++ str_of_int return_code)))
    (fun e => raise (_handle_pipe_exception e)).

Fixpoint read_from_pipe_loop (fuel : nat) (handle : HANDLE)
    (data_parts : list string) : M string :=
  match fuel with
  | O => fun _ => None
  | S fuel' =>
    st <- read_from_pipe_step handle data_parts ;;
    match st with
    | Continue data_parts' => read_from_pipe_loop fuel' handle data_parts'
    | Done s => ret s
    end
  end.

(** Every turn takes one answer off [incoming], and a turn with
    nothing to take blocks: one more turn than there are answers is
    all the loop can make. *)
Definition read_from_pipe (handle : HANDLE) : M string :=
  fun w => read_from_pipe_loop (S (List.length (incoming w))) handle [] w.

Definition write_to_pipe (handle : HANDLE) (message : string) : M unit :=
  try_except_pywin
    (win32file.WriteFile handle (encode_utf8 message))
    (fun e => raise (_handle_pipe_exception e)).

Definition SLEEP_MS : Z := 100.

(** The handler of a failed [CreateFile]; [None] is [continue] with
    [handle] still [None]. *)
Definition on_open_error (start_time timeout_in_seconds : Z)
    (e : pywin_error) : M (option HANDLE) :=
  if Z_in (winerror e) [ERROR_FILE_NOT_FOUND; ERROR_PIPE_BUSY] then
    now <- time.time ;;
    let duration := now - start_time in
    time.sleep SLEEP_MS ;;
    if duration >? timeout_in_seconds then
      _logger.error (LogReadinessTimeout duration timeout_in_seconds) ;;
      raise (NamedPipeTimeoutError duration (PywinError e))
    else ret None
  else
    _logger.error (LogCouldNotOpen e) ;;
    raise (PywinError e).

(** [while handle is None: ...]; [fuel] bounds the number of turns. *)
Fixpoint connect_loop (fuel : nat) (pipe_name : string)
    (start_time timeout_in_seconds : Z) : M HANDLE :=
  match fuel with
  | O => fun _ => None
  | S fuel' =>
    handle <- try_except_pywin
                (h <- win32file.CreateFile pipe_name ;; ret (Some h))
                (on_open_error start_time timeout_in_seconds) ;;
    match handle with
    | None => connect_loop fuel' pipe_name start_time timeout_in_seconds
    | Some h => ret h
    end
  end.

Definition establish_named_pipe_connection (fuel : nat)
    (pipe_name : string) (timeout_in_seconds : Z) : M HANDLE :=
  start_time <- time.time ;;
  handle <- connect_loop fuel pipe_name start_time timeout_in_seconds ;;
  win32pipe.SetNamedPipeHandleState handle ;;
  ret handle.

(** The dictionary built inside the [try] of
    [send_named_pipe_request]. *)
Definition build_message_dict (method path : string)
    (params json_body : option Dict) : result Dict :=
  let message_dict := [("method", PStr method); ("path", PStr path)] in
  rbind (if truthy json_body then
           rbind (json_dumps (as_pyval json_body)) (fun s =>
           Return (setitem message_dict "body" (PStr s)))
         else Return message_dict) (fun message_dict =>
  if truthy params then
    rbind (json_dumps (as_pyval params)) (fun s =>
    Return (setitem message_dict "params" (PStr s)))
  else Return message_dict).

Definition send_named_pipe_request (fuel : nat) (pipe_name : string)
    (timeout_in_seconds : Z) (method path : string)
    (params json_body : option Dict) : M pyval :=
  handle <- establish_named_pipe_connection fuel pipe_name
              timeout_in_seconds ;;
  result <- try_finally
              (message_dict <- lift (build_message_dict method path
                                       params json_body) ;;
               message <- lift (json_dumps (PDict message_dict)) ;;
               write_to_pipe handle message ;;
               read_from_pipe handle)
              (close handle) ;;
  lift (json_loads result).

End NamedPipeHelper.

(** ** A model of the [json] library

    [send_named_pipe_request] works with any serialiser and parser.
    This one follows [json.dumps] and [json.loads] with their default
    arguments, on the values of [pyval]: items separated by [", "],
    keys by [": "], and every character outside printable ASCII
    escaped.  Numbers with a fraction or an exponent, [NaN] and
    [Infinity] are floats, and a lone surrogate escape gives a string
    with no UTF-8 encoding: the parser here refuses both. *)
Module json.

Local Open Scope N_scope.

Definition chr (n : N) : ascii := ascii_of_N n.
Definition ord (c : ascii) : N := N_of_ascii c.

(** The code points of a UTF-8 encoded text. *)
Fixpoint code_points (l : list N) : list N :=
  match l with
  | [] => []
  | b0 :: t0 =>
    if b0 <? 128 then b0 :: code_points t0
    else match t0 with
    | [] => [b0]
    | b1 :: t1 =>
      if b0 <? 224
      then ((b0 mod 32) * 64 + b1 mod 64) :: code_points t1
      else match t1 with
      | [] => [b0; b1]
      | b2 :: t2 =>
        if b0 <? 240
        then ((b0 mod 16) * 4096 + (b1 mod 64) * 64 + b2 mod 64)
             :: code_points t2
        else match t2 with
        | [] => [b0; b1; b2]
        | b3 :: t3 =>
          ((b0 mod 8) * 262144 + (b1 mod 64) * 4096
           + (b2 mod 64) * 64 + b3 mod 64) :: code_points t3
        end
      end
    end
  end.

(** The UTF-8 encoding of one code point. *)
Definition utf8_of_code_point (cp : N) : list N :=
  if cp <? 128 then [cp]
  else if cp <? 2048 then [192 + cp / 64; 128 + cp mod 64]
  else if cp <? 65536
  then [224 + cp / 4096; 128 + (cp / 64) mod 64; 128 + cp mod 64]
  else [240 + cp / 262144; 128 + (cp / 4096) mod 64;
        128 + (cp / 64) mod 64; 128 + cp mod 64].

Definition hex_digit (n : N) : ascii :=
  if n <? 10 then chr (48 + n) else chr (87 + n).

(** [\uXXXX] *)
Definition u_escape (n : N) : list ascii :=
  ["\"; "u"; hex_digit (n / 4096); hex_digit ((n / 256) mod 16);
   hex_digit ((n / 16) mod 16); hex_digit (n mod 16)]%char.

Definition escape_code_point (cp : N) : list ascii :=
  if cp =? 34 then ["\"%char; dquote]
  else if cp =? 92 then ["\"; "\"]%char
  else if cp =? 10 then ["\"; "n"]%char
  else if cp =? 13 then ["\"; "r"]%char
  else if cp =? 9 then ["\"; "t"]%char
  else if cp =? 8 then ["\"; "b"]%char
  else if cp =? 12 then ["\"; "f"]%char
  else if (32 <=? cp) && (cp <=? 126) then [chr cp]
  else if cp <? 65536 then u_escape cp
  else (u_escape (55296 + (cp - 65536) / 1024)
        ++ u_escape (56320 + (cp - 65536) mod 1024))%list.

(** [py_encode_basestring_ascii] *)
Definition encode_basestring_ascii (s : string) : string :=
  string_of_list_ascii
    (dquote
     :: flat_map escape_code_point
          (code_points (map ord (list_ascii_of_string s)))
     ++ [dquote])%list.

Local Open Scope string_scope.

Fixpoint join (sep : string) (l : list string) : string :=
  match l with
  | [] => EmptyString
  | [x] => x
  | x :: rest => x ++ sep ++ join sep rest
  end.

(** [sequence f l] encodes the items of [l], stopping at the first
    that raises. *)
Fixpoint sequence {A} (f : A -> result string) (l : list A)
  : result (list string) :=
  match l with
  | [] => Return []
  | x :: rest =>
    rbind (f x) (fun s =>
    rbind (sequence f rest) (fun ss => Return (s :: ss)))
  end.

Fixpoint dumps (v : pyval) : result string :=
  match v with
  | PNone => Return "null"
  | PBool true => Return "true"
  | PBool false => Return "false"
  | PInt z => Return (str_of_int z)
  | PStr s => Return (encode_basestring_ascii s)
  | PList l =>
    rbind (sequence dumps l) (fun ss =>
    Return ("[" ++ join ", " ss ++ "]"))
  | PDict d =>
    rbind
      ((fix items (d : list (string * pyval)) : result (list string) :=
          match d with
          | [] => Return []
          | (k, x) :: rest =>
            rbind (dumps x) (fun s =>
            rbind (items rest) (fun ss =>
            Return ((encode_basestring_ascii k ++ ": " ++ s) :: ss)))
          end) d)
      (fun ss => Return ("{" ++ join ", " ss ++ "}"))
  | PObject type_name =>
    Raise (TypeError ("Object of type " ++ type_name
                      ++ " is not JSON serializable"))
  end.

(** *** The parser: a scanner, then a descent over the tokens *)

Inductive token :=
| TLBrace | TRBrace | TLBracket | TRBracket | TColon | TComma
| TString (s : string)
| TInt (z : Z)
| TTrue | TFalse | TNull.

Local Open Scope N_scope.

Definition hex_value (c : ascii) : option N :=
  let n := ord c in
  if (48 <=? n) && (n <=? 57) then Some (n - 48)
  else if (97 <=? n) && (n <=? 102) then Some (n - 87)
  else if (65 <=? n) && (n <=? 70) then Some (n - 55)
  else None.

Definition hex4 (a b c d : ascii) : option N :=
  match hex_value a, hex_value b, hex_value c, hex_value d with
  | Some x, Some y, Some z, Some t => Some (x * 4096 + y * 256 + z * 16 + t)
  | _, _, _, _ => None
  end.

Definition is_high_surrogate (n : N) : bool := (55296 <=? n) && (n <=? 56319).
Definition is_low_surrogate (n : N) : bool := (56320 <=? n) && (n <=? 57343).

Definition utf8_chars (cp : N) : list ascii := map chr (utf8_of_code_point cp).

(** The characters of a string literal after its opening quote:
    the decoded text (reversed in [acc]) and what follows the closing
    quote. *)
Fixpoint scan_string (s : list ascii) (acc : list ascii)
  : option (string * list ascii) :=
  match s with
  | [] => None
  | c :: rest =>
    if ord c =? 34 then Some (string_of_list_ascii (rev acc), rest)
    else if ord c <? 32 then None
    else if ord c =? 92 then
      match rest with
      | [] => None
      | e :: rest1 =>
        let simple (x : N) := scan_string rest1 (chr x :: acc) in
        if ord e =? 34 then simple 34
        else if ord e =? 92 then simple 92
        else if ord e =? 47 then simple 47
        else if ord e =? 98 then simple 8
        else if ord e =? 102 then simple 12
        else if ord e =? 110 then simple 10
        else if ord e =? 114 then simple 13
        else if ord e =? 116 then simple 9
        else if ord e =? 117 then
          match rest1 with
          | a :: b :: c1 :: d :: rest5 =>
            match hex4 a b c1 d with
            | None => None
            | Some hi =>
              if is_low_surrogate hi then None
              else if is_high_surrogate hi then
                match rest5 with
                | bs :: u :: a' :: b' :: c' :: d' :: rest11 =>
                  if (ord bs =? 92) && (ord u =? 117) then
                    match hex4 a' b' c' d' with
                    | None => None
                    | Some lo =>
                      if is_low_surrogate lo then
                        scan_string rest11
                          (rev (utf8_chars (65536 + (hi - 55296) * 1024
                                            + (lo - 56320))) ++ acc)%list
                      else None
                    end
                  else None
                | _ => None
                end
              else scan_string rest5 (rev (utf8_chars hi) ++ acc)%list
            end
          | _ => None
          end
        else None
      end
    else scan_string rest (c :: acc)
  end.

Definition is_digit (c : ascii) : bool := (48 <=? ord c) && (ord c <=? 57).

(** The run of digits at the head of [s], as a number. *)
Fixpoint scan_digits (s : list ascii) (acc : N) : N * list ascii :=
  match s with
  | c :: rest =>
    if is_digit c then scan_digits rest (acc * 10 + (ord c - 48))
    else (acc, s)
  | [] => (acc, [])
  end.

(** After an integer no fraction and no exponent may follow. *)
Definition starts_fraction (s : list ascii) : bool :=
  match s with
  | c :: _ => (ord c =? 46) || (ord c =? 101) || (ord c =? 69)
  | [] => false
  end.

(** An optional minus sign, then [0] alone or digits that do not
    start with [0]. *)
Definition scan_int (s : list ascii) : option (Z * list ascii) :=
  let '(neg, body) :=
    match s with
    | c :: rest => if ord c =? 45 then (true, rest) else (false, s)
    | [] => (false, s)
    end in
  match body with
  | c :: rest =>
    if ord c =? 48 then
      if starts_fraction rest then None
      else Some (0%Z, rest)
    else if is_digit c then
      let '(n, rest') := scan_digits body 0 in
      if starts_fraction rest' then None
      else Some (if neg then (- Z.of_N n)%Z else Z.of_N n, rest')
    else None
  | [] => None
  end.

Definition is_space (c : ascii) : bool :=
  (ord c =? 32) || (ord c =? 9) || (ord c =? 10) || (ord c =? 13).

Fixpoint strip_prefix (p s : list ascii) : option (list ascii) :=
  match p, s with
  | [], _ => Some s
  | a :: p', b :: s' => if Ascii.eqb a b then strip_prefix p' s' else None
  | _ :: _, [] => None
  end.

Fixpoint scan (fuel : nat) (s : list ascii) : option (list token) :=
  match fuel with
  | O => None
  | S fuel' =>
    match s with
    | [] => Some []
    | c :: rest =>
      let one (t : token) (rest : list ascii) :=
        option_map (cons t) (scan fuel' rest) in
      if is_space c then scan fuel' rest
      else if ord c =? 123 then one TLBrace rest
      else if ord c =? 125 then one TRBrace rest
      else if ord c =? 91 then one TLBracket rest
      else if ord c =? 93 then one TRBracket rest
      else if ord c =? 58 then one TColon rest
      else if ord c =? 44 then one TComma rest
      else if ord c =? 34 then
        match scan_string rest [] with
        | Some (str, rest') => one (TString str) rest'
        | None => None
        end
      else if (ord c =? 45) || is_digit c then
        match scan_int s with
        | Some (z, rest') => one (TInt z) rest'
        | None => None
        end
      else
        match strip_prefix (list_ascii_of_string "true") s with
        | Some rest' => one TTrue rest'
        | None =>
        match strip_prefix (list_ascii_of_string "false") s with
        | Some rest' => one TFalse rest'
        | None =>
        match strip_prefix (list_ascii_of_string "null") s with
        | Some rest' => one TNull rest'
        | None => None
        end end end
    end
  end.

(** A key given twice keeps its first place and its last value. *)
Fixpoint dict_set (d : list (string * pyval)) (k : string) (v : pyval)
  : list (string * pyval) :=
  match d with
  | [] => [(k, v)]
  | (k', v') :: rest =>
    if String.eqb k k' then (k', v) :: rest
    else (k', v') :: dict_set rest k v
  end.

Fixpoint parse_value (fuel : nat) (ts : list token)
  : option (pyval * list token) :=
  match fuel with
  | O => None
  | S fuel' =>
    match ts with
    | TNull :: rest => Some (PNone, rest)
    | TTrue :: rest => Some (PBool true, rest)
    | TFalse :: rest => Some (PBool false, rest)
    | TInt z :: rest => Some (PInt z, rest)
    | TString s :: rest => Some (PStr s, rest)
    | TLBracket :: TRBracket :: rest => Some (PList [], rest)
    | TLBracket :: rest => parse_items fuel' rest []
    | TLBrace :: TRBrace :: rest => Some (PDict [], rest)
    | TLBrace :: rest => parse_members fuel' rest []
    | _ => None
    end
  end
with parse_items (fuel : nat) (ts : list token) (acc : list pyval)
  : option (pyval * list token) :=
  match fuel with
  | O => None
  | S fuel' =>
    match parse_value fuel' ts with
    | Some (v, TComma :: rest) => parse_items fuel' rest (v :: acc)
    | Some (v, TRBracket :: rest) => Some (PList (rev (v :: acc)), rest)
    | _ => None
    end
  end
with parse_members (fuel : nat) (ts : list token)
    (acc : list (string * pyval)) : option (pyval * list token) :=
  match fuel with
  | O => None
  | S fuel' =>
    match ts with
    | TString k :: TColon :: rest =>
      match parse_value fuel' rest with
      | Some (v, TComma :: rest') =>
        parse_members fuel' rest' (dict_set acc k v)
      | Some (v, TRBrace :: rest') => Some (PDict (dict_set acc k v), rest')
      | _ => None
      end
    | _ => None
    end
  end.

Definition loads (s : string) : result pyval :=
  let chars := list_ascii_of_string s in
  match scan (S (List.length chars)) chars with
  | None => Raise (JSONDecodeError s)
  | Some ts =>
    match parse_value (S (2 * List.length ts)) ts with
    | Some (v, []) => Return v
    | _ => Raise (JSONDecodeError s)
    end
  end.

End json.

(** ** What a message-mode pipe hands to its reader

    A message longer than the reader's buffer comes in pieces: every
    piece but the last is returned with [ERROR_MORE_DATA], the last
    with [NO_ERROR]. *)
Fixpoint deliver (chunks : list bytes) : list read_outcome :=
  match chunks with
  | [] => []
  | [c] => [ReadOk NO_ERROR c]
  | c :: rest => ReadOk ERROR_MORE_DATA c :: deliver rest
  end.

(** The pieces of [data] for a buffer of [size] bytes. *)
Fixpoint split_by (fuel size : nat) (data : bytes) : list bytes :=
  match fuel with
  | O => [data]
  | S fuel' =>
    if (List.length data <=? size)%nat then [data]
    else firstn size data :: split_by fuel' size (skipn size data)
  end.

Definition message_mode_reads (size : Z) (data : bytes) : list read_outcome :=
  deliver (split_by (List.length data) (Z.to_nat size) data).

(** ** The error kinds of the specification *)

Inductive error_kind :=
| Timeout
| Disconnected
| IOFailure
| ProtocolDecodeFailure.

(** The kind an exception stands for; four exceptions stand for none. *)
Definition kind_of (e : exn) : option error_kind :=
  match e with
  | NamedPipeTimeoutError _ _ => Some Timeout
  | PipeDisconnectedException _ _ _ _ => Some Disconnected
  | PywinError _ => Some IOFailure
  | IOError _ => Some IOFailure
  | JSONDecodeError _ => Some ProtocolDecodeFailure
  | UnicodeDecodeError _ => None
  | TypeError _ => None
  | ValueError _ => None
  | RecursionError _ => None
  end.

(** The exception classes that this module declares. *)
Definition declared_here (e : exn) : bool :=
  match e with
  | PipeDisconnectedException _ _ _ _ => true
  | NamedPipeTimeoutError _ _ => true
  | _ => false
  end.

Definition is_transient (e : pywin_error) : bool :=
  Z_in (winerror e) [ERROR_FILE_NOT_FOUND; ERROR_PIPE_BUSY].

Definition is_disconnect (e : pywin_error) : bool :=
  Z_in (winerror e)
    [ERROR_BROKEN_PIPE; ERROR_PIPE_NOT_CONNECTED; ERROR_INVALID_HANDLE].

(** ** Reading a trace *)

Definition is_close (h : HANDLE) (ev : event) : bool :=
  match ev with
  | EvClose h' => h =? h'
  | _ => false
  end.

Definition closes (h : HANDLE) (t : list event) : nat :=
  List.length (filter (is_close h) t).

Definition is_sleep (ev : event) : bool :=
  match ev with
  | EvSleep _ => true
  | _ => false
  end.

Definition sleeps (t : list event) : nat := List.length (filter is_sleep t).

(** The data of the [WriteFile] calls, in order. *)
Fixpoint written (t : list event) : list bytes :=
  match t with
  | [] => []
  | EvWriteFile _ data :: rest => data :: written rest
  | _ :: rest => written rest
  end.

(** Every chunk the peer will deliver is well-formed UTF-8. *)
Definition chunk_ok (r : read_outcome) : bool :=
  match r with
  | ReadOk _ data => utf8_well_formed data
  | ReadErr _ => true
  end.

(** ** Some worlds *)

Module Worlds.

Definition file_not_found : pywin_error :=
  mk_pywin_error ERROR_FILE_NOT_FOUND "CreateFile"
    "The system cannot find the file specified.".

Definition pipe_busy : pywin_error :=
  mk_pywin_error ERROR_PIPE_BUSY "CreateFile" "All pipe instances are busy.".

Definition access_denied : pywin_error :=
  mk_pywin_error 5 "CreateFile" "Access is denied.".

(** The letter e with an acute accent, U+00E9. *)
Definition e_acute : string := string_of_list_byte [xc3; xa9].

Fixpoint replicate (n : nat) (c : ascii) : string :=
  match n with
  | O => EmptyString
  | S n' => String c (replicate n' c)
  end.

(** 8191 letters and an e-acute: 8193 bytes, the e-acute astride the
    end of a buffer of 8192. *)
Definition long_message : string :=
  replicate (Z.to_nat 8191) "a" ++ e_acute.

(** The same between quotes, a JSON string of 8194 bytes. *)
Definition long_reply : string :=
  dq "'" ++ replicate (Z.to_nat 8190) "a" ++ e_acute ++ dq "'".

Definition broken_pipe (func : string) : pywin_error :=
  mk_pywin_error ERROR_BROKEN_PIPE func "The pipe has been ended.".

Definition not_connected (func : string) : pywin_error :=
  mk_pywin_error ERROR_PIPE_NOT_CONNECTED func "No process is on the other end of the pipe.".

(** A fresh world at time [0]. *)
Definition fresh (script : nat -> open_attempt)
    (set_state : option pywin_error)
    (write : bytes -> option pywin_error)
    (reply : list read_outcome) : World :=
  mk_World 0 script 0 set_state write reply [].

(** The server listens: the first open gives handle [7]. *)
Definition ready (reply : list read_outcome) : World :=
  fresh (fun _ => mk_open_attempt 0 (inr 7)) None (fun _ => None) reply.

(** The server never listens. *)
Definition never_ready : World :=
  fresh (fun _ => mk_open_attempt 0 (inl file_not_found)) None
        (fun _ => None) [].

(** The first open fails after 950 ms, the second succeeds. *)
Definition late : World :=
  fresh (fun n => match n with
                  | O => mk_open_attempt 950 (inl file_not_found)
                  | _ => mk_open_attempt 0 (inr 7)
                  end)
        None (fun _ => None) [].

(** The open is refused. *)
Definition denied : World :=
  fresh (fun _ => mk_open_attempt 0 (inl access_denied)) None
        (fun _ => None) [].

(** The open succeeds and [SetNamedPipeHandleState] fails. *)
Definition mode_failure : World :=
  fresh (fun _ => mk_open_attempt 0 (inr 7))
        (Some (not_connected "SetNamedPipeHandleState"))
        (fun _ => None) [].

End Worlds.

(** ** Frames: what a call leaves untouched *)

(** Two worlds with the same environment: the scripts the program
    cannot change. *)
Definition same_env (w w' : World) : Prop :=
  create_file_script w' = create_file_script w
  /\ set_state_script w' = set_state_script w
  /\ write_file_script w' = write_file_script w.

(** The world after [k] reads of [size] bytes on handle [h] that leave
    [rest] to come. *)
Definition after_reads (size : Z) (h : HANDLE) (k : nat)
    (rest : list read_outcome) (w : World) : World :=
  mk_World (clock w) (create_file_script w) (opens_made w)
           (set_state_script w) (write_file_script w) rest
           (trace w ++ repeat (EvReadFile h size) k).

(** The events of connecting: everything but writes, reads and
    closes. *)
Definition before_exchange (ev : event) : bool :=
  match ev with
  | EvWriteFile _ _ => false
  | EvReadFile _ _ => false
  | EvClose _ => false
  | _ => true
  end.

(** The world after one [CreateFile], and after the sleep that follows
    a failed one. *)
Definition after_open (pipe_name : string) (w : World) : World :=
  log_event (EvCreateFile pipe_name)
    (count_open (advance (latency (create_file_script w (opens_made w))) w)).

Definition after_sleep (w : World) : World :=
  log_event (EvSleep SLEEP_MS) (advance SLEEP_MS w).

(** The events of [n] turns of the connecting loop that each fail with
    a transient code. *)
Definition turns (pipe_name : string) (n : nat) : list event :=
  List.concat (repeat [EvCreateFile pipe_name; EvSleep SLEEP_MS] n).

(** The exception a call ended with, if it ended with one. *)
Definition raised {A} (r : option (result A * World)) : option exn :=
  match r with
  | Some (Raise e, _) => Some e
  | _ => None
  end.

(** ASCII data: every byte below 128. *)
Definition is_ascii (data : bytes) : bool := forallb (in_range 0 127) data.

(** Chunks that each announce more data. *)
Definition more_data (chunks : list bytes) : list read_outcome :=
  map (ReadOk ERROR_MORE_DATA) chunks.

(** The time taken by [n] opens, from the open number [first] on. *)
Fixpoint total_latency (script : nat -> open_attempt) (first n : nat) : Z :=
  match n with
  | O => 0
  | S n' => latency (script first) + total_latency script (S first) n'
  end.

Definition is_read (ev : event) : bool :=
  match ev with
  | EvReadFile _ _ => true
  | _ => false
  end.

Definition reads (t : list event) : nat := List.length (filter is_read t).

(** * Theorems *)

(** ** The error classifier *)

(** C3: a transport error whose code is broken-pipe, pipe-not-connected
    or invalid-handle is raised again as a [PipeDisconnectedException]
    that carries the code, the name of the failing function and the
    message of the original error; an error with any other code is
    raised again as it is, the same [pywintypes.error]. *)
Theorem handle_pipe_exception_classifies (e : pywin_error) :
  (winerror e = ERROR_BROKEN_PIPE \/ winerror e = ERROR_PIPE_NOT_CONNECTED
   \/ winerror e = ERROR_INVALID_HANDLE ->
   _handle_pipe_exception e
   = PipeDisconnectedException (winerror e) (funcname e) (strerror e)
       ("An error occurred: " ++ strerror e ++ " (Error code: "
        ++ str_of_int (winerror e) ++ ") in function " ++ funcname e)
   /\ kind_of (_handle_pipe_exception e) = Some Disconnected)
  /\
  (~ (winerror e = ERROR_BROKEN_PIPE \/ winerror e = ERROR_PIPE_NOT_CONNECTED
      \/ winerror e = ERROR_INVALID_HANDLE) ->
   _handle_pipe_exception e = PywinError e
   /\ kind_of (_handle_pipe_exception e) = Some IOFailure).
Proof.
  unfold _handle_pipe_exception, new_PipeDisconnectedException, Z_in.
  cbn [existsb].
  split.
  - intros [H | [H | H]]; rewrite H; cbn; auto.
  - intros H.
    destruct (winerror e =? ERROR_BROKEN_PIPE) eqn:E1;
      [apply Z.eqb_eq in E1; tauto|].
    destruct (winerror e =? ERROR_PIPE_NOT_CONNECTED) eqn:E2;
      [apply Z.eqb_eq in E2; tauto|].
    destruct (winerror e =? ERROR_INVALID_HANDLE) eqn:E3;
      [apply Z.eqb_eq in E3; tauto|].
    cbn. auto.
Qed.

Lemma handle_pipe_exception_classifies_witness :
  _handle_pipe_exception (Worlds.broken_pipe "ReadFile")
  = PipeDisconnectedException 109 "ReadFile" "The pipe has been ended."
      "An error occurred: The pipe has been ended. (Error code: 109) in function ReadFile"
  /\ _handle_pipe_exception Worlds.access_denied
     = PywinError Worlds.access_denied.
Proof.
  split.
  - apply (proj1 (handle_pipe_exception_classifies
                    (Worlds.broken_pipe "ReadFile"))).
    left. reflexivity.
  - apply (proj2 (handle_pipe_exception_classifies Worlds.access_denied)).
    cbn. intros [H | [H | H]]; discriminate H.
Defined.

(** ** Frames *)

Lemma same_env_refl w : same_env w w.
Proof. repeat split. Qed.

Lemma same_env_trans w1 w2 w3 :
  same_env w1 w2 -> same_env w2 w3 -> same_env w1 w3.
Proof.
  unfold same_env. intros (A & B & C) (D & E & F).
  repeat split; congruence.
Qed.

Lemma is_transient_codes (e : pywin_error) :
  is_transient e = true
  <-> winerror e = ERROR_FILE_NOT_FOUND \/ winerror e = ERROR_PIPE_BUSY.
Proof.
  unfold is_transient, Z_in. cbn [existsb].
  rewrite !orb_true_iff, !Z.eqb_eq. intuition discriminate.
Qed.

Section Proofs.

Variable json_dumps : pyval -> result string.
Variable json_loads : string -> result pyval.
Variable size : Z.

(** One turn of the reading loop, case by case. *)
Lemma read_step_eq (h : HANDLE) (parts : list string) (w : World) :
  read_from_pipe_step size h parts w =
  match incoming w with
  | [] => None
  | r :: rest =>
    let w' := log_event (EvReadFile h size) (set_incoming rest w) in
    match r with
    | ReadErr e => Some (Raise (_handle_pipe_exception e), w')
    | ReadOk code data =>
      if utf8_well_formed data then
        let parts' := (parts ++ [string_of_list_byte data])%list in
        if code =? ERROR_MORE_DATA then Some (Return (Continue parts'), w')
        else if code =? NO_ERROR
        then Some (Return (Done (String.concat EmptyString parts')), w')
        else Some (Raise (IOError
              ("Got error when reading from the Named Pipe with error code: "
               ++ str_of_int code)), w')
      else Some (Raise (UnicodeDecodeError data), w')
    end
  end.
Proof.
  unfold read_from_pipe_step, try_except_pywin, bind, win32file.ReadFile,
    lift, decode_utf8, ret, raise.
  destruct (incoming w) as [|[code data|e] rest]; try reflexivity.
  destruct (utf8_well_formed data); try reflexivity.
  destruct (code =? ERROR_MORE_DATA); try reflexivity.
  destruct (code =? NO_ERROR); reflexivity.
Qed.

(** A reading loop that returns has made some reads and nothing
    else. *)
Lemma read_loop_frame (fuel : nat) :
  forall h parts w r w',
    read_from_pipe_loop size fuel h parts w = Some (r, w') ->
    exists k, w' = after_reads size h k (incoming w') w
              /\ (k <= List.length (incoming w))%nat.
Proof.
  induction fuel as [|fuel IH]; intros h parts w r w' H; [discriminate|].
  cbn [read_from_pipe_loop] in H. unfold bind in H.
  rewrite read_step_eq in H.
  destruct (incoming w) as [|o rest] eqn:Ein; [discriminate|].
  cbn [List.length].
  assert (Hone : forall x,
    Some (x, log_event (EvReadFile h size) (set_incoming rest w))
    = Some (r, w') ->
    exists k, w' = after_reads size h k (incoming w') w
              /\ (k <= S (List.length rest))%nat).
  { intros x Hx. injection Hx as _ <-. exists 1%nat. split; [|lia].
    destruct w; reflexivity. }
  cbv zeta in H.
  destruct o as [code data|e]; [|eauto].
  destruct (utf8_well_formed data); [|eauto].
  destruct (code =? ERROR_MORE_DATA).
  - apply IH in H. destruct H as (k & Hw & Hk).
    exists (S k). cbn [incoming log_event set_incoming] in Hk.
    split; [|lia].
    rewrite Hw at 1.
    destruct w; cbn in *. unfold after_reads, log_event, set_incoming; cbn.
    now rewrite <- app_assoc.
  - destruct (code =? NO_ERROR); unfold ret in H; eauto.
Qed.

(** *** Joining the decoded parts *)

Lemma append_nil_r (s : string) : s ++ EmptyString = s.
Proof. induction s; cbn; congruence. Qed.

Lemma append_assoc (a b c : string) : (a ++ b) ++ c = a ++ (b ++ c).
Proof. induction a; cbn; congruence. Qed.

Lemma join_cons (x : string) (l : list string) :
  String.concat EmptyString (x :: l) = x ++ String.concat EmptyString l.
Proof.
  destruct l; cbn; [now rewrite append_nil_r | reflexivity].
Qed.

Lemma join_app (l1 l2 : list string) :
  String.concat EmptyString (l1 ++ l2)
  = String.concat EmptyString l1 ++ String.concat EmptyString l2.
Proof.
  induction l1 as [|x l1 IH]; [reflexivity|].
  rewrite <- app_comm_cons, !join_cons, IH. now rewrite append_assoc.
Qed.

Lemma string_of_list_byte_app (a b : bytes) :
  string_of_list_byte (a ++ b)
  = string_of_list_byte a ++ string_of_list_byte b.
Proof.
  unfold string_of_list_byte.
  induction a as [|x a IH]; cbn; congruence.
Qed.

Lemma join_decoded (chunks : list bytes) :
  String.concat EmptyString (map string_of_list_byte chunks)
  = string_of_list_byte (List.concat chunks).
Proof.
  induction chunks as [|c chunks IH]; [reflexivity|].
  cbn [map List.concat]. now rewrite join_cons, IH, string_of_list_byte_app.
Qed.

(** *** Reading a message that arrives in well-formed chunks *)

Lemma read_loop_deliver (chunks : list bytes) :
  forall fuel h parts w rest,
    chunks <> [] ->
    forallb utf8_well_formed chunks = true ->
    incoming w = (deliver chunks ++ rest)%list ->
    (List.length chunks <= fuel)%nat ->
    read_from_pipe_loop size fuel h parts w
    = Some (Return (String.concat EmptyString parts
                    ++ string_of_list_byte (List.concat chunks)),
            after_reads size h (List.length chunks) rest w).
Proof.
  induction chunks as [|c chunks IH]; intros fuel h parts w rest Hne Hwf Hin Hf;
    [congruence|].
  destruct fuel as [|fuel]; [cbn in Hf; lia|].
  cbn [forallb] in Hwf. apply andb_true_iff in Hwf. destruct Hwf as [Hc Hwf].
  cbn [read_from_pipe_loop]. unfold bind. rewrite read_step_eq.
  destruct chunks as [|c2 chunks].
  - cbn [deliver app] in Hin. rewrite Hin. cbv zeta. rewrite Hc.
    cbn [Z.eqb ERROR_MORE_DATA NO_ERROR]. unfold ret.
    rewrite join_app. cbn [List.concat String.concat List.length].
    rewrite app_nil_r. reflexivity.
  - change (deliver (c :: c2 :: chunks))
      with (ReadOk ERROR_MORE_DATA c :: deliver (c2 :: chunks)) in Hin.
    rewrite <- app_comm_cons in Hin. rewrite Hin. cbv zeta. rewrite Hc.
    rewrite Z.eqb_refl.
    erewrite IH; [| discriminate | exact Hwf | reflexivity | cbn in *; lia].
    rewrite join_app. cbn [String.concat].
    change (List.concat (c :: c2 :: chunks))
      with (c ++ List.concat (c2 :: chunks))%list.
    rewrite string_of_list_byte_app, append_assoc.
    do 2 f_equal.
    unfold after_reads, log_event, set_incoming; cbn.
    now rewrite <- app_assoc.
Qed.

Lemma read_from_pipe_deliver (chunks : list bytes) h w rest :
  chunks <> [] ->
  forallb utf8_well_formed chunks = true ->
  incoming w = (deliver chunks ++ rest)%list ->
  read_from_pipe size h w
  = Some (Return (string_of_list_byte (List.concat chunks)),
          after_reads size h (List.length chunks) rest w).
Proof.
  intros Hne Hwf Hin. unfold read_from_pipe.
  rewrite (read_loop_deliver chunks _ h [] w rest Hne Hwf Hin).
  - reflexivity.
  - rewrite Hin, length_app.
    assert (List.length (deliver chunks) = List.length chunks).
    { clear. induction chunks as [|c [|c2 chunks] IH]; cbn in *; auto. }
    lia.
Qed.

(** *** Errors of a read *)

Lemma handle_pipe_exception_kind (e : pywin_error) :
  kind_of (_handle_pipe_exception e) = Some Disconnected
  \/ kind_of (_handle_pipe_exception e) = Some IOFailure.
Proof.
  unfold _handle_pipe_exception.
  destruct (Z_in _ _); cbn; auto.
Qed.

Lemma read_loop_raises (fuel : nat) :
  forall h parts w e w',
    read_from_pipe_loop size fuel h parts w = Some (Raise e, w') ->
    forallb chunk_ok (incoming w) = true ->
    kind_of e = Some Disconnected \/ kind_of e = Some IOFailure.
Proof.
  induction fuel as [|fuel IH]; intros h parts w e w' H Hok; [discriminate|].
  cbn [read_from_pipe_loop] in H. unfold bind in H.
  rewrite read_step_eq in H.
  destruct (incoming w) as [|o rest] eqn:Ein; [discriminate|].
  cbn [forallb] in Hok. apply andb_true_iff in Hok. destruct Hok as [Ho Hok].
  cbv zeta in H.
  destruct o as [code data|e0].
  - cbn [chunk_ok] in Ho. rewrite Ho in H.
    destruct (code =? ERROR_MORE_DATA).
    + eapply IH; [exact H | exact Hok].
    + destruct (code =? NO_ERROR); [discriminate|].
      injection H as <- _. right. reflexivity.
  - injection H as <- _. apply handle_pipe_exception_kind.
Qed.

(** *** The connecting loop *)

(** One turn of the connecting loop, case by case. *)
Lemma connect_loop_S (fuel : nat) (pipe_name : string)
    (start_time timeout : Z) (w : World) :
  connect_loop (S fuel) pipe_name start_time timeout w =
  let w1 := after_open pipe_name w in
  match outcome (create_file_script w (opens_made w)) with
  | inr h => Some (Return h, w1)
  | inl e =>
    if is_transient e then
      let duration := clock w1 - start_time in
      if duration >? timeout then
        Some (Raise (NamedPipeTimeoutError duration (PywinError e)),
              log_event (EvLogError (LogReadinessTimeout duration timeout))
                (after_sleep w1))
      else connect_loop fuel pipe_name start_time timeout (after_sleep w1)
    else
      Some (Raise (PywinError e), log_event (EvLogError (LogCouldNotOpen e)) w1)
  end.
Proof.
  cbn [connect_loop].
  unfold bind, try_except_pywin, win32file.CreateFile, on_open_error,
    after_open, after_sleep, is_transient.
  destruct (outcome (create_file_script w (opens_made w))) as [e|h];
    [|reflexivity].
  destruct (Z_in (winerror e) _); [|reflexivity].
  unfold time.time, time.sleep, _logger.error, bind, raise, ret.
  cbn [clock log_event count_open advance].
  destruct (_ >? timeout); reflexivity.
Qed.

Lemma connect_loop_frame (fuel : nat) :
  forall pipe_name start_time timeout w r w',
    connect_loop fuel pipe_name start_time timeout w = Some (r, w') ->
    same_env w w' /\ incoming w' = incoming w
    /\ (opens_made w < opens_made w')%nat
    /\ exists evs, trace w' = (trace w ++ evs)%list
                   /\ forallb before_exchange evs = true.
Proof.
  induction fuel as [|fuel IH]; intros pipe_name start_time timeout w r w' H;
    [discriminate|].
  rewrite connect_loop_S in H. cbv zeta in H.
  destruct (outcome (create_file_script w (opens_made w))) as [e|h].
  - destruct (is_transient e).
    + destruct (_ >? timeout).
      * injection H as _ <-. cbn.
        split; [now unfold same_env|]. split; [reflexivity|].
        split; [lia|].
        eexists. rewrite <- !app_assoc. split; reflexivity.
      * apply IH in H. destruct H as (He & Hi & Ho & evs & Ht & Hev).
        cbn in *.
        split; [exact He|]. split; [exact Hi|]. split; [lia|].
        exists (EvCreateFile pipe_name :: EvSleep SLEEP_MS :: evs).
        rewrite Ht, <- !app_assoc. split; [reflexivity | exact Hev].
    + injection H as _ <-. cbn.
      split; [now unfold same_env|]. split; [reflexivity|].
      split; [lia|].
      eexists. rewrite <- !app_assoc. split; reflexivity.
  - injection H as _ <-. cbn.
    split; [now unfold same_env|]. split; [reflexivity|].
    split; [lia|].
    eexists. split; reflexivity.
Qed.

(** What the connecting loop raises: a timeout that wraps a transient
    error, or an error that is not transient. *)
Lemma connect_loop_raises (fuel : nat) :
  forall pipe_name start_time timeout w e w',
    connect_loop fuel pipe_name start_time timeout w = Some (Raise e, w') ->
    (exists d e0, e = NamedPipeTimeoutError d (PywinError e0)
                  /\ is_transient e0 = true /\ timeout < d)
    \/ (exists e0, e = PywinError e0 /\ is_transient e0 = false).
Proof.
  induction fuel as [|fuel IH]; intros pipe_name start_time timeout w e w' H;
    [discriminate|].
  rewrite connect_loop_S in H. cbv zeta in H.
  destruct (outcome (create_file_script w (opens_made w))) as [e1|h];
    [|discriminate].
  destruct (is_transient e1) eqn:Etr.
  - destruct (_ >? timeout) eqn:Egt.
    + injection H as <- _. left. do 2 eexists.
      split; [reflexivity|]. split; [exact Etr|].
      now apply Z.gtb_lt.
    + eapply IH; exact H.
  - injection H as <- _. right. eauto.
Qed.

(** A connecting loop that returns a handle was given it by its last
    open; every open before failed with a transient code. *)
Lemma connect_loop_returns (fuel : nat) :
  forall pipe_name start_time timeout w h w',
    connect_loop fuel pipe_name start_time timeout w = Some (Return h, w') ->
    outcome (create_file_script w (pred (opens_made w'))) = inr h
    /\ forall i, (opens_made w <= i < pred (opens_made w'))%nat ->
         exists e, outcome (create_file_script w i) = inl e
                   /\ is_transient e = true.
Proof.
  induction fuel as [|fuel IH]; intros pipe_name start_time timeout w h w' H;
    [discriminate|].
  rewrite connect_loop_S in H. cbv zeta in H.
  destruct (outcome (create_file_script w (opens_made w))) as [e1|h1] eqn:Eo.
  - destruct (is_transient e1) eqn:Etr; [|discriminate].
    destruct (_ >? timeout); [discriminate|].
    pose proof (connect_loop_frame _ _ _ _ _ _ _ H) as (_ & _ & Hlt & _).
    apply IH in H. cbn in H, Hlt. destruct H as [Hlast Hbefore].
    split; [exact Hlast|].
    intros i Hi.
    destruct (Nat.eq_dec i (opens_made w)) as [->|Hne]; [eauto|].
    apply Hbefore. lia.
  - injection H as <- <-. cbn. split; [exact Eo|]. intros i Hi. lia.
Qed.

(** More fuel changes nothing once the loop has returned. *)
Lemma connect_loop_more_fuel (fuel : nat) :
  forall pipe_name start_time timeout w x fuel',
    connect_loop fuel pipe_name start_time timeout w = Some x ->
    (fuel <= fuel')%nat ->
    connect_loop fuel' pipe_name start_time timeout w = Some x.
Proof.
  induction fuel as [|fuel IH];
    intros pipe_name start_time timeout w x fuel' H Hle; [discriminate|].
  destruct fuel' as [|fuel']; [lia|].
  rewrite connect_loop_S in *. cbv zeta in *.
  destruct (outcome (create_file_script w (opens_made w))) as [e|h];
    [|exact H].
  destruct (is_transient e); [|exact H].
  destruct (_ >? timeout); [exact H|].
  apply IH; [exact H | lia].
Qed.

(** A server that never listens: the loop ends, in a timeout. *)
Lemma connect_loop_times_out (fuel : nat) :
  forall pipe_name start_time timeout w L,
    (forall i, (opens_made w <= i)%nat ->
       exists e, outcome (create_file_script w i) = inl e
                 /\ is_transient e = true) ->
    (forall i, 0 <= latency (create_file_script w i) <= L) ->
    (1 <= fuel)%nat ->
    timeout - (clock w - start_time) < 100 * Z.of_nat fuel - 100 ->
    exists d e w',
      connect_loop fuel pipe_name start_time timeout w
      = Some (Raise (NamedPipeTimeoutError d (PywinError e)), w')
      /\ timeout < d
      /\ clock w' = start_time + d + 100
      /\ is_transient e = true
      /\ outcome (create_file_script w (pred (opens_made w'))) = inl e
      /\ (clock w - start_time <= timeout + 100 -> d <= timeout + 100 + L)
      /\ exists n,
           (1 <= n)%nat
           /\ opens_made w' = (opens_made w + n)%nat
           /\ trace w'
              = (trace w ++ turns pipe_name n
                 ++ [EvLogError (LogReadinessTimeout d timeout)])%list.
Proof.
  induction fuel as [|fuel IH];
    intros pipe_name start_time timeout w L Hnever Hlat Hfuel Hmeasure; [lia|].
  rewrite connect_loop_S. cbv zeta.
  destruct (Hnever (opens_made w) (le_n _)) as (e & Ho & Htr).
  rewrite Ho, Htr.
  pose proof (Hlat (opens_made w)) as Hl.
  destruct (_ >? timeout) eqn:Egt.
  - apply Z.gtb_lt in Egt. cbn in Egt.
    do 3 eexists. split; [reflexivity|]. cbn.
    split; [exact Egt|]. split; [unfold SLEEP_MS; lia|].
    split; [exact Htr|]. split; [exact Ho|]. split; [lia|].
    exists 1%nat. split; [lia|]. split; [lia|].
    unfold turns. cbn. now rewrite <- !app_assoc.
  - assert (Hle : clock w + latency (create_file_script w (opens_made w))
                  - start_time <= timeout).
    { destruct (Z.gtb_spec (clock (after_open pipe_name w) - start_time) timeout);
        [discriminate|]. cbn in *. lia. }
    destruct (IH pipe_name start_time timeout
                (after_sleep (after_open pipe_name w)) L)
      as (d & e' & w' & Hrun & Hd & Hclock & Htr' & Hlast & Hbound
          & n & Hn & Hopens & Htrace).
    + cbn. intros i Hi. apply Hnever. lia.
    + cbn. exact Hlat.
    + destruct fuel; [exfalso|lia].
      change (Z.of_nat 1) with 1 in Hmeasure. lia.
    + unfold after_sleep, after_open, SLEEP_MS.
      cbn [clock log_event advance count_open].
      rewrite Nat2Z.inj_succ in Hmeasure. lia.
    + exists d, e', w'. split; [exact Hrun|].
      split; [exact Hd|]. split; [exact Hclock|].
      split; [exact Htr'|]. split; [exact Hlast|].
      split.
      * intros _. apply Hbound.
        unfold after_sleep, after_open, SLEEP_MS.
        cbn [clock log_event advance count_open]. lia.
      * exists (S n). split; [lia|]. cbn in Hopens, Htrace.
        split; [lia|]. rewrite Htrace. unfold turns. cbn.
        now rewrite <- !app_assoc.
Qed.

(** *** Connecting *)

Lemma establish_eq (fuel : nat) (pipe_name : string) (timeout : Z)
    (w : World) :
  establish_named_pipe_connection fuel pipe_name timeout w =
  match connect_loop fuel pipe_name (clock w) timeout w with
  | None => None
  | Some (Raise e, w1) => Some (Raise e, w1)
  | Some (Return h, w1) =>
    let w2 := log_event (EvSetNamedPipeHandleState h) w1 in
    match set_state_script w1 with
    | Some e => Some (Raise (PywinError e), w2)
    | None => Some (Return h, w2)
    end
  end.
Proof.
  unfold establish_named_pipe_connection, bind, time.time,
    win32pipe.SetNamedPipeHandleState, ret.
  destruct (connect_loop fuel pipe_name (clock w) timeout w)
    as [[[h|e] w1]|]; try reflexivity.
  destruct (set_state_script w1); reflexivity.
Qed.

Lemma establish_frame fuel pipe_name timeout w r w' :
  establish_named_pipe_connection fuel pipe_name timeout w = Some (r, w') ->
  same_env w w' /\ incoming w' = incoming w
  /\ exists evs, trace w' = (trace w ++ evs)%list
                 /\ forallb before_exchange evs = true.
Proof.
  rewrite establish_eq.
  destruct (connect_loop fuel pipe_name (clock w) timeout w)
    as [[[h|e] w1]|] eqn:Hc; [| |discriminate].
  - apply connect_loop_frame in Hc.
    destruct Hc as (He & Hi & _ & evs & Ht & Hev).
    cbv zeta.
    assert (Hw' : w' = log_event (EvSetNamedPipeHandleState h) w1
                  -> same_env w w' /\ incoming w' = incoming w
                     /\ exists evs, trace w' = (trace w ++ evs)%list
                                    /\ forallb before_exchange evs = true).
    { intros ->. cbn. split; [exact He|]. split; [exact Hi|].
      exists (evs ++ [EvSetNamedPipeHandleState h])%list.
      rewrite Ht, app_assoc. split; [reflexivity|].
      rewrite forallb_app, Hev. reflexivity. }
    destruct (set_state_script w1); intros H; injection H as _ <-;
      now apply Hw'.
  - intros H. injection H as _ <-.
    apply connect_loop_frame in Hc.
    destruct Hc as (He & Hi & _ & Hev). auto.
Qed.

Lemma establish_raises fuel pipe_name timeout w e w' :
  establish_named_pipe_connection fuel pipe_name timeout w
  = Some (Raise e, w') ->
  kind_of e = Some Timeout \/ kind_of e = Some IOFailure.
Proof.
  rewrite establish_eq.
  destruct (connect_loop fuel pipe_name (clock w) timeout w)
    as [[[h|e1] w1]|] eqn:Hc; [| |discriminate].
  - cbv zeta. destruct (set_state_script w1); [|discriminate].
    intros H. injection H as <- _. right. reflexivity.
  - intros H. injection H as <- _.
    apply connect_loop_raises in Hc.
    destruct Hc as [(d & e0 & -> & _) | (e0 & -> & _)]; cbn; auto.
Qed.

(** A connection that is established met no fault but transient
    open failures. *)
Lemma establish_returns fuel pipe_name timeout w h w' :
  establish_named_pipe_connection fuel pipe_name timeout w
  = Some (Return h, w') ->
  set_state_script w = None
  /\ outcome (create_file_script w (pred (opens_made w'))) = inr h
  /\ forall i, (opens_made w <= i < pred (opens_made w'))%nat ->
       exists e, outcome (create_file_script w i) = inl e
                 /\ is_transient e = true.
Proof.
  rewrite establish_eq.
  destruct (connect_loop fuel pipe_name (clock w) timeout w)
    as [[[h1|e1] w1]|] eqn:Hc; [|discriminate|discriminate].
  cbv zeta. pose proof (connect_loop_frame _ _ _ _ _ _ _ Hc) as ((_ & Hs & _) & _).
  destruct (set_state_script w1) eqn:Es; [discriminate|].
  intros H. injection H as <- <-. cbn.
  split; [congruence|]. eapply connect_loop_returns; exact Hc.
Qed.

(** *** The exchange *)

Lemma write_to_pipe_eq (h : HANDLE) (message : string) (w : World) :
  write_to_pipe h message w =
  let w' := log_event (EvWriteFile h (encode_utf8 message)) w in
  match write_file_script w (encode_utf8 message) with
  | Some e => Some (Raise (_handle_pipe_exception e), w')
  | None => Some (Return tt, w')
  end.
Proof.
  unfold write_to_pipe, try_except_pywin, win32file.WriteFile, raise.
  destruct (write_file_script w (encode_utf8 message)); reflexivity.
Qed.

Local Abbreviation send := (send_named_pipe_request json_dumps json_loads size).

(** The whole call, case by case. *)
Lemma send_eq fuel pipe_name timeout method path params json_body w :
  send fuel pipe_name timeout method path params json_body w =
  match establish_named_pipe_connection fuel pipe_name timeout w with
  | None => None
  | Some (Raise e, w1) => Some (Raise e, w1)
  | Some (Return h, w1) =>
    match build_message_dict json_dumps method path params json_body with
    | Raise e => Some (Raise e, log_event (EvClose h) w1)
    | Return d =>
      match json_dumps (PDict d) with
      | Raise e => Some (Raise e, log_event (EvClose h) w1)
      | Return message =>
        let w2 := log_event (EvWriteFile h (encode_utf8 message)) w1 in
        match write_file_script w1 (encode_utf8 message) with
        | Some e =>
          Some (Raise (_handle_pipe_exception e), log_event (EvClose h) w2)
        | None =>
          match read_from_pipe size h w2 with
          | None => None
          | Some (Raise e, w3) => Some (Raise e, log_event (EvClose h) w3)
          | Some (Return text, w3) =>
            Some (json_loads text, log_event (EvClose h) w3)
          end
        end
      end
    end
  end.
Proof.
  unfold send_named_pipe_request, bind at 1.
  destruct (establish_named_pipe_connection fuel pipe_name timeout w)
    as [[[h|e] w1]|]; try reflexivity.
  unfold bind at 1, try_finally, close, lift.
  unfold bind at 1.
  destruct (build_message_dict json_dumps method path params json_body)
    as [d|e]; [|reflexivity].
  unfold bind at 1.
  destruct (json_dumps (PDict d)) as [message|e]; [|reflexivity].
  unfold bind at 1. rewrite write_to_pipe_eq. cbv zeta.
  destruct (write_file_script w1 (encode_utf8 message)); [reflexivity|].
  destruct (read_from_pipe size h _) as [[[text|e] w3]|]; reflexivity.
Qed.

(** A read that returns a text has taken a whole message off
    [incoming]: well-formed chunks, all but the last marked with
    [ERROR_MORE_DATA]. *)
Lemma read_loop_returns (fuel : nat) :
  forall h parts w text w',
    read_from_pipe_loop size fuel h parts w = Some (Return text, w') ->
    exists chunks,
      chunks <> []
      /\ incoming w = (deliver chunks ++ incoming w')%list
      /\ forallb utf8_well_formed chunks = true
      /\ text = String.concat EmptyString parts
                ++ string_of_list_byte (List.concat chunks).
Proof.
  induction fuel as [|fuel IH]; intros h parts w text w' H; [discriminate|].
  cbn [read_from_pipe_loop] in H. unfold bind in H.
  rewrite read_step_eq in H.
  destruct (incoming w) as [|o rest] eqn:Ein; [discriminate|].
  cbv zeta in H.
  destruct o as [code data|e]; [|discriminate].
  destruct (utf8_well_formed data) eqn:Hwf; [|discriminate].
  destruct (code =? ERROR_MORE_DATA) eqn:Emore.
  - apply Z.eqb_eq in Emore. subst code.
    apply IH in H. destruct H as (chunks & Hne & Hin & Hall & Htext).
    cbn [incoming log_event set_incoming] in Hin.
    exists (data :: chunks).
    split; [discriminate|]. split; [|split].
    + destruct chunks as [|c chunks]; [congruence|].
      change (deliver (data :: c :: chunks))
        with (ReadOk ERROR_MORE_DATA data :: deliver (c :: chunks)).
      rewrite <- app_comm_cons. now f_equal.
    + cbn [forallb]. now rewrite Hwf.
    + rewrite Htext, join_app. cbn [String.concat List.concat].
      now rewrite string_of_list_byte_app, append_assoc.
  - destruct (code =? NO_ERROR) eqn:Eno; [|discriminate].
    apply Z.eqb_eq in Eno. subst code.
    unfold ret in H. injection H as <- <-.
    exists [data]. cbn [incoming log_event set_incoming].
    split; [discriminate|]. split; [reflexivity|]. split.
    + cbn [forallb]. now rewrite Hwf.
    + rewrite join_app. cbn [String.concat List.concat].
      now rewrite app_nil_r.
Qed.

(** *** Counting the closes *)

Lemma closes_app (h : HANDLE) (t1 t2 : list event) :
  closes h (t1 ++ t2) = (closes h t1 + closes h t2)%nat.
Proof. unfold closes. now rewrite filter_app, length_app. Qed.

Lemma closes_before_exchange (h : HANDLE) (evs : list event) :
  forallb before_exchange evs = true -> closes h evs = 0%nat.
Proof.
  unfold closes. induction evs as [|ev evs IH]; [reflexivity|].
  cbn [forallb filter]. intros H. apply andb_true_iff in H.
  destruct H as [Hev H]. destruct ev; cbn in *; auto; discriminate.
Qed.

Lemma closes_reads (h h' : HANDLE) (k : nat) :
  closes h (repeat (EvReadFile h' size) k) = 0%nat.
Proof. unfold closes. induction k; cbn; auto. Qed.

(** Once the connection is established the call closes the handle
    once, however it ends. *)
Lemma send_closes_once fuel pipe_name timeout method path params json_body
    w h w1 r w' :
  establish_named_pipe_connection fuel pipe_name timeout w
  = Some (Return h, w1) ->
  send fuel pipe_name timeout method path params json_body w
  = Some (r, w') ->
  exists evs, trace w' = (trace w ++ evs)%list /\ closes h evs = 1%nat.
Proof.
  intros Hest Hsend. rewrite send_eq, Hest in Hsend.
  apply establish_frame in Hest.
  destruct Hest as (_ & _ & evs & Ht & Hev).
  pose proof (closes_before_exchange h evs Hev) as Hc0.
  assert (Hdirect : forall evs2 w2,
    trace w2 = (trace w1 ++ evs2)%list -> closes h evs2 = 0%nat ->
    w' = log_event (EvClose h) w2 ->
    exists evs, trace w' = (trace w ++ evs)%list /\ closes h evs = 1%nat).
  { intros evs2 w2 Ht2 Hc2 ->.
    exists (evs ++ evs2 ++ [EvClose h])%list. split.
    - cbn. rewrite Ht2, Ht, <- !app_assoc. reflexivity.
    - rewrite !closes_app, Hc0, Hc2. unfold closes. cbn.
      now rewrite Z.eqb_refl. }
  destruct (build_message_dict json_dumps method path params json_body)
    as [d|e].
  2:{ injection Hsend as _ <-. apply (Hdirect [] w1); auto using app_nil_r. }
  destruct (json_dumps (PDict d)) as [message|e].
  2:{ injection Hsend as _ <-. apply (Hdirect [] w1); auto using app_nil_r. }
  cbv zeta in Hsend.
  destruct (write_file_script w1 (encode_utf8 message)).
  { injection Hsend as _ <-.
    apply (Hdirect [EvWriteFile h (encode_utf8 message)]
             (log_event (EvWriteFile h (encode_utf8 message)) w1));
      reflexivity. }
  destruct (read_from_pipe size h _) as [[[text|e] w3]|] eqn:Hread;
    [| |discriminate].
  all: injection Hsend as _ <-.
  all: unfold read_from_pipe in Hread; apply read_loop_frame in Hread.
  all: destruct Hread as (k & Hw3 & _).
  all: apply (Hdirect (EvWriteFile h (encode_utf8 message)
                       :: repeat (EvReadFile h size) k) w3);
    [ rewrite Hw3; cbn; now rewrite <- app_assoc
    | change (EvWriteFile h (encode_utf8 message)
              :: repeat (EvReadFile h size) k)
        with ([EvWriteFile h (encode_utf8 message)]
              ++ repeat (EvReadFile h size) k)%list;
      rewrite closes_app, closes_reads; reflexivity
    | reflexivity ].
Qed.

(** ** The happy path *)

(** When the connection is established, the envelope serialises, the
    write succeeds and the reply comes in chunks that are each
    well-formed UTF-8, the call returns what the parser makes of the
    reply, and the handle is closed. *)
Lemma send_returns_parsed_response fuel pipe_name timeout method path
    params json_body w h w1 d message chunks rest v :
  establish_named_pipe_connection fuel pipe_name timeout w
  = Some (Return h, w1) ->
  build_message_dict json_dumps method path params json_body = Return d ->
  json_dumps (PDict d) = Return message ->
  write_file_script w (encode_utf8 message) = None ->
  chunks <> [] ->
  incoming w = (deliver chunks ++ rest)%list ->
  forallb utf8_well_formed chunks = true ->
  json_loads (string_of_list_byte (List.concat chunks)) = Return v ->
  send fuel pipe_name timeout method path params json_body w
  = Some (Return v,
          log_event (EvClose h)
            (after_reads size h (List.length chunks) rest
               (log_event (EvWriteFile h (encode_utf8 message)) w1))).
Proof.
  intros Hest Hd Hm Hw Hne Hin Hwf Hv.
  rewrite send_eq, Hest, Hd, Hm. cbv zeta.
  apply establish_frame in Hest. destruct Hest as ((_ & _ & Hws) & Hi & _).
  rewrite Hws, Hw.
  rewrite (read_from_pipe_deliver chunks h _ rest Hne Hwf).
  - now rewrite Hv.
  - cbn. now rewrite Hi.
Qed.

(** ** Retrying the open *)

(** C4: a failed open takes the backoff path - the 100 ms sleep, then
    either the timeout or one more open - exactly when its code is
    file-not-found or pipe-busy.  With any other code the error is raised
    again at once: no sleep, no further open, whatever the timeout.  On the
    backoff path the open is tried again unless the time measured at the
    failure is past the timeout. *)
Theorem open_failure_retried_iff_transient (fuel : nat) (pipe_name : string)
    (start_time timeout : Z) (w : World) (e : pywin_error) :
  outcome (create_file_script w (opens_made w)) = inl e ->
  (~ (winerror e = ERROR_FILE_NOT_FOUND \/ winerror e = ERROR_PIPE_BUSY) ->
   exists w',
     connect_loop (S fuel) pipe_name start_time timeout w
     = Some (Raise (PywinError e), w')
     /\ kind_of (PywinError e) = Some IOFailure
     /\ opens_made w' = S (opens_made w)
     /\ clock w' = clock w + latency (create_file_script w (opens_made w))
     /\ trace w' = (trace w ++ [EvCreateFile pipe_name;
                                EvLogError (LogCouldNotOpen e)])%list)
  /\
  (winerror e = ERROR_FILE_NOT_FOUND \/ winerror e = ERROR_PIPE_BUSY ->
   trace (after_sleep (after_open pipe_name w))
   = (trace w ++ [EvCreateFile pipe_name; EvSleep 100])%list
   /\ connect_loop (S fuel) pipe_name start_time timeout w
      = if clock (after_open pipe_name w) - start_time >? timeout
        then Some (Raise (NamedPipeTimeoutError
                            (clock (after_open pipe_name w) - start_time)
                            (PywinError e)),
                   log_event
                     (EvLogError
                        (LogReadinessTimeout
                           (clock (after_open pipe_name w) - start_time)
                           timeout))
                     (after_sleep (after_open pipe_name w)))
        else connect_loop fuel pipe_name start_time timeout
               (after_sleep (after_open pipe_name w)))
  /\
  (forall r w',
     connect_loop (S fuel) pipe_name start_time timeout w = Some (r, w') ->
     ((S (opens_made w) < opens_made w')%nat <->
      (winerror e = ERROR_FILE_NOT_FOUND \/ winerror e = ERROR_PIPE_BUSY)
      /\ clock (after_open pipe_name w) - start_time <= timeout)).
Proof.
  intros Ho.
  pose proof (is_transient_codes e) as Htr.
  pose proof (connect_loop_S fuel pipe_name start_time timeout w) as Heq.
  cbv zeta in Heq. rewrite Ho in Heq.
  split; [|split].
  - intros Hnot.
    destruct (is_transient e) eqn:E;
      [exfalso; apply Hnot, Htr; reflexivity|].
    eexists. split; [exact Heq|]. cbn. rewrite <- app_assoc. auto.
  - intros Hyes. apply Htr in Hyes. rewrite Hyes in Heq.
    split; [|exact Heq].
    cbn. now rewrite <- app_assoc.
  - intros r w' Hrun. rewrite Heq in Hrun.
    destruct (is_transient e) eqn:E.
    + destruct (_ >? timeout) eqn:Egt.
      * injection Hrun as _ <-. cbn. apply Z.gtb_lt in Egt. cbn in Egt.
        split; [lia|]. intros [_ Hle]. lia.
      * apply connect_loop_frame in Hrun.
        destruct Hrun as (_ & _ & Hlt & _). cbn in Hlt.
        split; [|intros _; lia]. intros _. split; [now apply Htr|].
        destruct (Z.gtb_spec (clock (after_open pipe_name w) - start_time)
                    timeout); [discriminate | lia].
    + injection Hrun as _ <-. cbn. split; [lia|].
      intros [Hc _]. apply Htr in Hc. discriminate.
Qed.

(** ** The timeout *)

(** C5, amended: on a transient open failure the handler first takes the
    time elapsed since the start, then sleeps 100 ms, and then raises the
    timeout - with that elapsed time, taken before the sleep, and the
    transient error - exactly when the elapsed time exceeds the timeout;
    otherwise the open is tried again.  So with a server that never
    listens the call ends in a timeout whose duration exceeds the
    timeout, by no more than one sleep and one open; the timeout is raised
    one sleep after that duration was taken. *)
Theorem timeout_measured_before_sleep (pipe_name : string)
    (start_time timeout : Z) (e0 : pywin_error) (w0 w : World) (L : Z) :
  (winerror e0 = ERROR_FILE_NOT_FOUND \/ winerror e0 = ERROR_PIPE_BUSY ->
   clock (after_sleep w0) = clock w0 + 100
   /\ on_open_error start_time timeout e0 w0
      = if clock w0 - start_time >? timeout
        then Some (Raise (NamedPipeTimeoutError (clock w0 - start_time)
                            (PywinError e0)),
                   log_event
                     (EvLogError
                        (LogReadinessTimeout (clock w0 - start_time) timeout))
                     (after_sleep w0))
        else Some (Return None, after_sleep w0))
  /\
  ((forall i, exists e,
       outcome (create_file_script w i) = inl e
       /\ (winerror e = ERROR_FILE_NOT_FOUND \/ winerror e = ERROR_PIPE_BUSY)) ->
   (forall i, 0 <= latency (create_file_script w i) <= L) ->
   0 <= timeout ->
   exists d e w',
     (forall fuel, (Z.to_nat (timeout / 100) + 2 <= fuel)%nat ->
        establish_named_pipe_connection fuel pipe_name timeout w
        = Some (Raise (NamedPipeTimeoutError d (PywinError e)), w'))
     /\ timeout < d <= timeout + 100 + L
     /\ clock w' = clock w + d + 100
     /\ (winerror e = ERROR_FILE_NOT_FOUND \/ winerror e = ERROR_PIPE_BUSY)
     /\ outcome (create_file_script w (pred (opens_made w'))) = inl e
     /\ exists n,
          (1 <= n)%nat
          /\ opens_made w' = (opens_made w + n)%nat
          /\ trace w'
             = (trace w ++ turns pipe_name n
                ++ [EvLogError (LogReadinessTimeout d timeout)])%list).
Proof.
  pose proof is_transient_codes as Htr.
  split.
  - intros He. apply Htr in He. split; [reflexivity|].
    unfold on_open_error. unfold is_transient in He. rewrite He.
    unfold time.time, time.sleep, _logger.error, bind, raise, ret, after_sleep.
    cbn [clock log_event advance].
    destruct (_ >? timeout); reflexivity.
  - intros Hnever Hlat Htimeout.
    set (fuel0 := (Z.to_nat (timeout / 100) + 2)%nat).
    destruct (connect_loop_times_out fuel0 pipe_name (clock w) timeout w L)
      as (d & e & w' & Hrun & Hd & Hclock & Hetr & Hlast & Hbound
          & n & Hn & Hopens & Htrace).
    + intros i _. destruct (Hnever i) as (e & Ho & He).
      exists e. split; [exact Ho | now apply Htr].
    + exact Hlat.
    + unfold fuel0. lia.
    + unfold fuel0. rewrite Nat2Z.inj_add, Z2Nat.id
        by (apply Z.div_pos; lia).
      pose proof (Z.mod_pos_bound timeout 100 ltac:(lia)).
      pose proof (Z.div_mod timeout 100 ltac:(lia)). lia.
    + exists d, e, w'. split; [|split; [|split; [|split; [|split]]]].
      * intros fuel Hfuel. rewrite establish_eq.
        now rewrite (connect_loop_more_fuel _ _ _ _ _ _ _ Hrun Hfuel).
      * split; [exact Hd|]. apply Hbound. lia.
      * exact Hclock.
      * now apply Htr.
      * exact Hlast.
      * exists n. auto.
Qed.

(** ** What was written *)

Lemma written_app (t1 t2 : list event) :
  written (t1 ++ t2) = (written t1 ++ written t2)%list.
Proof.
  induction t1 as [|ev t1 IH]; [reflexivity|].
  destruct ev; cbn; rewrite ?IH; reflexivity.
Qed.

Lemma written_before_exchange (evs : list event) :
  forallb before_exchange evs = true -> written evs = [].
Proof.
  induction evs as [|ev evs IH]; [reflexivity|].
  cbn [forallb]. intros H. apply andb_true_iff in H. destruct H as [Hev H].
  destruct ev; cbn in *; auto; discriminate.
Qed.

Lemma written_reads (h : HANDLE) (k : nat) :
  written (repeat (EvReadFile h size) k) = [].
Proof. induction k; cbn; auto. Qed.

(** The fields of the envelope. *)
Lemma build_message_dict_fields method path params json_body sb sp :
  (truthy json_body = true -> json_dumps (as_pyval json_body) = Return sb) ->
  (truthy params = true -> json_dumps (as_pyval params) = Return sp) ->
  build_message_dict json_dumps method path params json_body
  = Return ([("method", PStr method); ("path", PStr path)]
            ++ (if truthy json_body then [("body", PStr sb)] else [])
            ++ (if truthy params then [("params", PStr sp)] else []))%list.
Proof.
  intros Hb Hp. unfold build_message_dict, setitem.
  destruct (truthy json_body); destruct (truthy params);
    rewrite ?Hb, ?Hp by reflexivity; reflexivity.
Qed.

(** Once connected, the call makes one write: the envelope,
    serialised and encoded. *)
Lemma send_writes_envelope fuel pipe_name timeout method path params
    json_body w h w1 r w' d message :
  establish_named_pipe_connection fuel pipe_name timeout w
  = Some (Return h, w1) ->
  send fuel pipe_name timeout method path params json_body w
  = Some (r, w') ->
  build_message_dict json_dumps method path params json_body = Return d ->
  json_dumps (PDict d) = Return message ->
  written (trace w') = (written (trace w) ++ [encode_utf8 message])%list.
Proof.
  intros Hest Hsend Hd Hm. rewrite send_eq, Hest, Hd, Hm in Hsend.
  apply establish_frame in Hest.
  destruct Hest as (_ & _ & evs & Ht & Hev).
  apply written_before_exchange in Hev.
  cbv zeta in Hsend.
  destruct (write_file_script w1 (encode_utf8 message)).
  { injection Hsend as _ <-. cbn.
    rewrite Ht, !written_app, Hev. cbn. now rewrite !app_nil_r. }
  destruct (read_from_pipe size h _) as [[[text|e] w3]|] eqn:Hread;
    [| |discriminate].
  all: injection Hsend as _ <-.
  all: unfold read_from_pipe in Hread; apply read_loop_frame in Hread.
  all: destruct Hread as (k & Hw3 & _).
  all: rewrite Hw3; cbn.
  all: rewrite Ht, !written_app, Hev, written_reads; cbn.
  all: now rewrite !app_nil_r.
Qed.

(** ** Kinds of failure *)

(** What the classifier raises, and of which kind. *)
Lemma handle_pipe_exception_classes (e0 : pywin_error) :
  (is_disconnect e0 = true
   /\ _handle_pipe_exception e0 = new_PipeDisconnectedException e0
   /\ kind_of (_handle_pipe_exception e0) = Some Disconnected)
  \/ (is_disconnect e0 = false
      /\ _handle_pipe_exception e0 = PywinError e0
      /\ kind_of (_handle_pipe_exception e0) = Some IOFailure).
Proof.
  unfold _handle_pipe_exception, is_disconnect.
  destruct (Z_in _ _); [left | right]; auto.
Qed.

(** What the connecting raises. *)
Lemma establish_raises_classes fuel pipe_name timeout w e w' :
  establish_named_pipe_connection fuel pipe_name timeout w
  = Some (Raise e, w') ->
  (exists d e0, e = NamedPipeTimeoutError d (PywinError e0)
                /\ kind_of e = Some Timeout)
  \/ (exists e0, e = PywinError e0 /\ kind_of e = Some IOFailure).
Proof.
  rewrite establish_eq.
  destruct (connect_loop fuel pipe_name (clock w) timeout w)
    as [[[h|e1] w1]|] eqn:Hc; [| |discriminate].
  - cbv zeta. destruct (set_state_script w1) as [e0|]; [|discriminate].
    intros H. injection H as <- _. right. eauto.
  - intros H. injection H as <- _.
    apply connect_loop_raises in Hc.
    destruct Hc as [(d & e0 & -> & _) | (e0 & -> & _)]; [left | right]; eauto.
Qed.

(** What the reading raises when every chunk is well-formed. *)
Lemma read_loop_raises_classes (fuel : nat) :
  forall h parts w e w',
    read_from_pipe_loop size fuel h parts w = Some (Raise e, w') ->
    forallb chunk_ok (incoming w) = true ->
    (exists e0, In (ReadErr e0) (incoming w)
                /\ e = _handle_pipe_exception e0)
    \/ (exists code,
          e = IOError
                ("Got error when reading from the Named Pipe with error code: "
                 ++ str_of_int code)
          /\ kind_of e = Some IOFailure).
Proof.
  induction fuel as [|fuel IH]; intros h parts w e w' H Hok; [discriminate|].
  cbn [read_from_pipe_loop] in H. unfold bind in H.
  rewrite read_step_eq in H.
  destruct (incoming w) as [|o rest] eqn:Ein; [discriminate|].
  cbn [forallb] in Hok. apply andb_true_iff in Hok. destruct Hok as [Ho Hok].
  cbv zeta in H.
  destruct o as [code data|e0].
  - cbn [chunk_ok] in Ho. rewrite Ho in H.
    destruct (code =? ERROR_MORE_DATA).
    + destruct (IH _ _ _ _ _ H Hok) as [(e0 & Hin & He) | Hio].
      * left. exists e0. split; [right; exact Hin | exact He].
      * right. exact Hio.
    + destruct (code =? NO_ERROR); [discriminate|].
      injection H as <- _. right. exists code. split; reflexivity.
  - injection H as <- _. left. exists e0. split; [left; reflexivity|].
    reflexivity.
Qed.

(** C2, amended: when the envelope serialises and every chunk the peer
    delivers is well-formed UTF-8, a failure of the call reaches the caller
    as follows, step by step.  From connecting: the timeout error, of kind
    Timeout, or the [pywintypes.error] as it was raised, of kind IOFailure.
    From the write: what the classifier makes of the error,
    [PipeDisconnectedException], of kind Disconnected, or the
    [pywintypes.error] itself, of kind IOFailure.  From the reads: the
    same, or [IOError], of kind IOFailure.  From parsing: the exception
    that the parser raised, as it is, which is of kind
    ProtocolDecodeFailure exactly when it is [JSONDecodeError].  No fault
    is swallowed: a call that returns met nothing but transient open
    failures, and what it returns is what the parser made of one whole
    message. *)
Theorem send_failure_kinds fuel pipe_name timeout method path params
    json_body w :
  (exists d message,
     build_message_dict json_dumps method path params json_body = Return d
     /\ json_dumps (PDict d) = Return message) ->
  forallb chunk_ok (incoming w) = true ->
  (forall e w',
     send fuel pipe_name timeout method path params json_body w
     = Some (Raise e, w') ->
     (establish_named_pipe_connection fuel pipe_name timeout w
      = Some (Raise e, w')
      /\ ((exists d e0, e = NamedPipeTimeoutError d (PywinError e0)
                        /\ kind_of e = Some Timeout)
          \/ (exists e0, e = PywinError e0 /\ kind_of e = Some IOFailure)))
     \/ (exists d message e0,
           build_message_dict json_dumps method path params json_body
           = Return d
           /\ json_dumps (PDict d) = Return message
           /\ write_file_script w (encode_utf8 message) = Some e0
           /\ e = _handle_pipe_exception e0)
     \/ (exists h w2 w3,
           read_from_pipe size h w2 = Some (Raise e, w3)
           /\ incoming w2 = incoming w
           /\ ((exists e0, In (ReadErr e0) (incoming w)
                           /\ e = _handle_pipe_exception e0)
               \/ (exists code,
                     e = IOError
                           ("Got error when reading from the Named Pipe with error code: "
                            ++ str_of_int code)
                     /\ kind_of e = Some IOFailure)))
     \/ (exists h w2 w3 text,
           read_from_pipe size h w2 = Some (Return text, w3)
           /\ incoming w2 = incoming w
           /\ json_loads text = Raise e
           /\ (kind_of e = Some ProtocolDecodeFailure
               <-> exists doc, e = JSONDecodeError doc)))
  /\
  (forall e0,
     (is_disconnect e0 = true
      /\ _handle_pipe_exception e0 = new_PipeDisconnectedException e0
      /\ kind_of (_handle_pipe_exception e0) = Some Disconnected)
     \/ (is_disconnect e0 = false
         /\ _handle_pipe_exception e0 = PywinError e0
         /\ kind_of (_handle_pipe_exception e0) = Some IOFailure))
  /\
  (forall v w',
     send fuel pipe_name timeout method path params json_body w
     = Some (Return v, w') ->
     set_state_script w = None
     /\ (exists h,
           outcome (create_file_script w (pred (opens_made w'))) = inr h)
     /\ (forall i, (opens_made w <= i < pred (opens_made w'))%nat ->
           exists e, outcome (create_file_script w i) = inl e
                     /\ is_transient e = true)
     /\ (exists d message,
           build_message_dict json_dumps method path params json_body
           = Return d
           /\ json_dumps (PDict d) = Return message
           /\ write_file_script w (encode_utf8 message) = None)
     /\ exists chunks,
          chunks <> []
          /\ incoming w = (deliver chunks ++ incoming w')%list
          /\ json_loads (string_of_list_byte (List.concat chunks))
             = Return v).
Proof.
  intros (d & message & Hd & Hm) Hok. split; [|split].
  - intros e w' Hsend. rewrite send_eq in Hsend.
    destruct (establish_named_pipe_connection fuel pipe_name timeout w)
      as [[[h|e1] w1]|] eqn:Hest; [| |discriminate].
    + rewrite Hd, Hm in Hsend. cbv zeta in Hsend.
      apply establish_frame in Hest.
      destruct Hest as ((_ & _ & Hws) & Hi & _).
      destruct (write_file_script w1 (encode_utf8 message)) as [e2|] eqn:Hw.
      { injection Hsend as <- _. right. left.
        exists d, message, e2. rewrite <- Hws. auto. }
      destruct (read_from_pipe size h _) as [[[text|e3] w3]|] eqn:Hread;
        [| |discriminate].
      * destruct (json_loads text) as [v|e4] eqn:Hl; [discriminate|].
        injection Hsend as <- _. right. right. right.
        eexists h, _, w3, text. split; [exact Hread|].
        split; [exact Hi|]. split; [exact Hl|].
        split.
        -- destruct e4; cbn; intros H; try discriminate H. eauto.
        -- intros (doc & ->). reflexivity.
      * injection Hsend as <- _. right. right. left.
        eexists h, _, w3. split; [exact Hread|]. split; [exact Hi|].
        unfold read_from_pipe in Hread.
        apply read_loop_raises_classes in Hread.
        -- cbn [incoming log_event] in Hread. rewrite Hi in Hread.
           exact Hread.
        -- cbn. now rewrite Hi.
    + injection Hsend as <- <-. left. split; [reflexivity|].
      eapply establish_raises_classes. exact Hest.
  - exact handle_pipe_exception_classes.
  - intros v w' Hsend. rewrite send_eq in Hsend.
    destruct (establish_named_pipe_connection fuel pipe_name timeout w)
      as [[[h|e1] w1]|] eqn:Hest; [|discriminate|discriminate].
    rewrite Hd, Hm in Hsend. cbv zeta in Hsend.
    pose proof (establish_frame _ _ _ _ _ _ Hest)
      as ((_ & _ & Hws) & Hi & _).
    apply establish_returns in Hest. destruct Hest as (Hs & Hlast & Hbefore).
    destruct (write_file_script w1 (encode_utf8 message)) eqn:Hw;
      [discriminate|].
    destruct (read_from_pipe size h _) as [[[text|e3] w3]|] eqn:Hread;
      [|discriminate|discriminate].
    destruct (json_loads text) as [v'|] eqn:Hl; [|discriminate].
    injection Hsend as <- <-.
    unfold read_from_pipe in Hread.
    pose proof (read_loop_frame _ _ _ _ _ _ Hread) as (k & Hw3 & _).
    apply read_loop_returns in Hread.
    destruct Hread as (chunks & Hne & Hin & _ & Htext).
    assert (Hopens : opens_made w3 = opens_made w1)
      by (rewrite Hw3; reflexivity).
    cbn [opens_made log_event]. rewrite Hopens.
    split; [exact Hs|]. split; [eauto|]. split; [exact Hbefore|].
    split.
    + exists d, message. split; [exact Hd|]. split; [exact Hm|]. congruence.
    + exists chunks. split; [exact Hne|]. split.
      * cbn in Hin. cbn. congruence.
      * subst text. exact Hl.
Qed.

(** ** Decoding the response *)

(** C8, amended: a response text that the parser rejects as not valid
    JSON, raising [JSONDecodeError], makes the call fail with that very
    exception: the exception of the parser as it was raised, which this
    module does not declare and does not wrap, and which is the one of kind
    ProtocolDecodeFailure.  On a response text that the parser does not
    reject in this way the call raises no exception of kind
    ProtocolDecodeFailure. *)
Theorem response_decoding fuel pipe_name timeout method path params
    json_body w h w1 d message text w3 :
  establish_named_pipe_connection fuel pipe_name timeout w
  = Some (Return h, w1) ->
  build_message_dict json_dumps method path params json_body = Return d ->
  json_dumps (PDict d) = Return message ->
  write_file_script w1 (encode_utf8 message) = None ->
  read_from_pipe size h (log_event (EvWriteFile h (encode_utf8 message)) w1)
  = Some (Return text, w3) ->
  (forall doc, json_loads text = Raise (JSONDecodeError doc) ->
     send fuel pipe_name timeout method path params json_body w
     = Some (Raise (JSONDecodeError doc), log_event (EvClose h) w3)
     /\ kind_of (JSONDecodeError doc) = Some ProtocolDecodeFailure
     /\ declared_here (JSONDecodeError doc) = false)
  /\ ((forall doc, json_loads text <> Raise (JSONDecodeError doc)) ->
      forall e w',
        send fuel pipe_name timeout method path params json_body w
        = Some (Raise e, w') ->
        json_loads text = Raise e
        /\ kind_of e <> Some ProtocolDecodeFailure).
Proof.
  intros Hest Hd Hm Hw Hread.
  assert (Hsend : send fuel pipe_name timeout method path params json_body w
                  = Some (json_loads text, log_event (EvClose h) w3)).
  { rewrite send_eq, Hest, Hd, Hm. cbv zeta. now rewrite Hw, Hread. }
  split.
  - intros doc Hdoc. rewrite Hsend, Hdoc. auto.
  - intros Hnot e w' Hraise. rewrite Hsend in Hraise.
    injection Hraise as Hl _. split; [exact Hl|].
    destruct e; cbn; try discriminate.
    exfalso. eapply Hnot. exact Hl.
Qed.

(** ** Empty mappings *)

Lemma build_message_dict_empty_params method path json_body :
  build_message_dict json_dumps method path (Some []) json_body
  = build_message_dict json_dumps method path None json_body.
Proof. reflexivity. Qed.

Lemma build_message_dict_empty_body method path params :
  build_message_dict json_dumps method path params (Some [])
  = build_message_dict json_dumps method path params None.
Proof. reflexivity. Qed.

Lemma build_message_dict_keys method path params json_body d :
  build_message_dict json_dumps method path params json_body = Return d ->
  map fst d
  = (["method"; "path"]
     ++ (if truthy json_body then ["body"] else [])
     ++ (if truthy params then ["params"] else []))%list.
Proof.
  unfold build_message_dict, setitem.
  destruct (truthy json_body); destruct (truthy params); cbn;
    repeat match goal with
           | |- context [json_dumps ?x] => destruct (json_dumps x); cbn
           end;
    intros H; try discriminate; injection H as <-; reflexivity.
Qed.

End Proofs.

(** ** The model of [json] *)

Lemma loads_raises_decode_error (s : string) (e : exn) :
  json.loads s = Raise e -> exists doc, e = JSONDecodeError doc.
Proof.
  unfold json.loads.
  destruct (json.scan _ _) as [ts|]; [|intros H; injection H as <-; eauto].
  destruct (json.parse_value _ _) as [[v [|t rest]]|];
    intros H; try discriminate; injection H as <-; eauto.
Qed.

(** ** Reading back what was written *)

(** A message whose chunks are each well-formed UTF-8 is read back as
    it was written. *)
Lemma read_back_chunks (size : Z) (h : HANDLE) (message : string)
    (chunks : list bytes) (w : World) :
  chunks <> [] ->
  List.concat chunks = encode_utf8 message ->
  forallb utf8_well_formed chunks = true ->
  incoming w = deliver chunks ->
  read_from_pipe size h w
  = Some (Return message, after_reads size h (List.length chunks) [] w).
Proof.
  intros Hne Hcat Hwf Hin.
  rewrite (read_from_pipe_deliver size chunks h w [] Hne Hwf).
  - unfold encode_utf8 in Hcat.
    now rewrite Hcat, string_of_list_byte_of_string.
  - now rewrite app_nil_r.
Qed.

(** C6: the message of three letters [a] and one e-acute, four
    characters in five bytes, is written in one call; read back through a
    buffer of four bytes it comes in two chunks, the first of which ends in
    the first byte of the e-acute, and the read raises
    [UnicodeDecodeError] where the message was to be returned.  The same
    happens with a buffer of 8192 bytes and a message of 8191 letters and
    an e-acute. *)
Theorem split_character_breaks_read_back :
  (let message := "aaa" ++ Worlds.e_acute in
   exists w1 w2,
     write_to_pipe 7 message (Worlds.ready []) = Some (Return tt, w1)
     /\ written (trace w1) = [encode_utf8 message]
     /\ message_mode_reads 4 (encode_utf8 message)
        = [ReadOk ERROR_MORE_DATA [x61; x61; x61; xc3]; ReadOk NO_ERROR [xa9]]
     /\ read_from_pipe 4 7
          (set_incoming (message_mode_reads 4 (encode_utf8 message)) w1)
        = Some (Raise (UnicodeDecodeError [x61; x61; x61; xc3]), w2))
  /\
  (let data := encode_utf8 Worlds.long_message in
   utf8_well_formed data = true
   /\ raised (read_from_pipe 8192 7
                (Worlds.ready (message_mode_reads 8192 data)))
      = Some (UnicodeDecodeError (firstn (Z.to_nat 8192) data))).
Proof.
  split.
  - cbv zeta. do 2 eexists.
    split; [reflexivity|]. split; [reflexivity|]. split; reflexivity.
  - cbv zeta. split; vm_compute; reflexivity.
Qed.

(** C1: the server listens, the envelope serialises, and the peer
    replies with one message of valid JSON, a string of two letters [a]
    and one e-acute.  Read through a buffer of four bytes the reply comes
    in two chunks that split the e-acute, and the call raises
    [UnicodeDecodeError] where the parsed reply was to be returned.  The
    same happens with a buffer of 8192 bytes and a reply of 8194. *)
Theorem split_character_breaks_reply :
  (let text := dq "'aa" ++ Worlds.e_acute ++ dq "'" in
   json.loads text = Return (PStr ("aa" ++ Worlds.e_acute))
   /\ exists w',
        send_named_pipe_request json.dumps json.loads 4 1 "pipe" 1000
          "GET" "/status" None None
          (Worlds.ready (message_mode_reads 4 (encode_utf8 text)))
        = Some (Raise (UnicodeDecodeError [x22; x61; x61; xc3]), w'))
  /\
  (let data := encode_utf8 Worlds.long_reply in
   json.loads Worlds.long_reply
   = Return (PStr (Worlds.replicate (Z.to_nat 8190) "a" ++ Worlds.e_acute))
   /\ raised (send_named_pipe_request json.dumps json.loads 8192 1 "pipe"
                1000 "GET" "/status" None None
                (Worlds.ready (message_mode_reads 8192 data)))
      = Some (UnicodeDecodeError (firstn (Z.to_nat 8192) data))).
Proof.
  split.
  - cbv zeta. split; [reflexivity|]. eexists. reflexivity.
  - cbv zeta. split; vm_compute; reflexivity.
Qed.

(** C9: the open gives a handle and [SetNamedPipeHandleState] fails;
    the call raises the error and the handle is not closed. *)
Theorem handle_left_open_when_mode_setting_fails :
  exists w',
    send_named_pipe_request json.dumps json.loads 8192 1 "pipe" 1000
      "GET" "/status" None None Worlds.mode_failure
    = Some (Raise (PywinError (Worlds.not_connected "SetNamedPipeHandleState")),
            w')
    /\ trace w' = [EvCreateFile "pipe"; EvSetNamedPipeHandleState 7]
    /\ outcome (create_file_script Worlds.mode_failure 0) = inr 7
    /\ closes 7 (trace w') = 0%nat.
Proof.
  eexists. split; [reflexivity|]. split; [reflexivity|].
  split; reflexivity.
Qed.

(** ** Counterexamples *)

(** C2: the peer replies with the single byte [0xFF], which is not
    UTF-8.  The call raises [UnicodeDecodeError], an exception of none of
    the four kinds. *)
Lemma undecodable_reply_has_no_kind :
  exists e w',
    send_named_pipe_request json.dumps json.loads 8192 1 "pipe" 1000
      "GET" "/status" None None (Worlds.ready [ReadOk NO_ERROR [xff]])
    = Some (Raise e, w')
    /\ kind_of e = None.
Proof.
  do 2 eexists. split; reflexivity.
Qed.

(** C5: the first open fails with file-not-found 950 ms after the start
    and the timeout is 1000 ms.  After the sleep 1050 ms have elapsed, more
    than the timeout, and the handler does not raise: the loop opens again
    and the call connects.  And with a server that never listens and a
    timeout of 200 ms the timeout is raised at 400 ms, after four sleeps,
    with a duration of 300 ms. *)
Lemma timeout_not_measured_after_sleep :
  (exists w1,
     on_open_error 0 1000 Worlds.file_not_found
       (after_open "pipe" Worlds.late)
     = Some (Return None, w1)
     /\ clock w1 - 0 = 1050
     /\ 1000 < clock w1 - 0)
  /\ (exists w',
        establish_named_pipe_connection 2 "pipe" 1000 Worlds.late
        = Some (Return 7, w'))
  /\ (exists w',
        establish_named_pipe_connection 4 "pipe" 200 Worlds.never_ready
        = Some (Raise (NamedPipeTimeoutError 300
                         (PywinError Worlds.file_not_found)), w')
        /\ clock w' = 400
        /\ sleeps (trace w') = 4%nat
        /\ 200 + 100 < clock w').
Proof.
  split; [|split].
  - eexists. split; [vm_compute; reflexivity|]. split; reflexivity.
  - eexists. vm_compute. reflexivity.
  - eexists. split; [vm_compute; reflexivity|]. split; [reflexivity|].
    split; reflexivity.
Qed.

(** C7: a body is given, the empty mapping, and the envelope has no
    body field. *)
Lemma empty_body_given_and_left_out :
  exists d,
    build_message_dict json.dumps "POST" "/run" None (Some []) = Return d
    /\ Some ([] : Dict) <> None
    /\ ~ In "body" (map fst d).
Proof.
  eexists. split; [reflexivity|]. split; [discriminate|].
  cbn. intros [H | [H | H]]; [discriminate H | discriminate H | exact H].
Qed.

(** C8: the reply is not valid JSON.  The call raises the exception
    that the parser raised, which is none of the exceptions this module
    declares. *)
Lemma decode_error_is_the_parser_s_own :
  let text := dq "{'ok':true" in
  exists e w',
    json.loads text = Raise e
    /\ send_named_pipe_request json.dumps json.loads 8192 1 "pipe" 1000
         "GET" "/status" None None
         (Worlds.ready (message_mode_reads 8192 (encode_utf8 text)))
       = Some (Raise e, w')
    /\ declared_here e = false.
Proof.
  cbv zeta. do 2 eexists. split; [reflexivity|]. split; reflexivity.
Qed.

(** ** The envelope *)

(** C7, amended: the envelope holds the fields method and path, then
    a body field when the body is a mapping that is not empty, then a
    params field when the params are a mapping that is not empty; each of
    the two is the JSON text of the mapping, a string.  Once the call is
    connected the one thing it writes is the envelope, serialised.  A GET
    of /status with neither body nor params gives the envelope of the two
    fields, and the body that maps x to 1 gives a body field that is the
    text of that mapping. *)
Theorem envelope_fields (json_dumps : pyval -> result string)
    (json_loads : string -> result pyval) (size : Z)
    (method path : string) (params json_body : option Dict)
    (sb sp : string) :
  (truthy json_body = true -> json_dumps (as_pyval json_body) = Return sb) ->
  (truthy params = true -> json_dumps (as_pyval params) = Return sp) ->
  build_message_dict json_dumps method path params json_body
  = Return ([("method", PStr method); ("path", PStr path)]
            ++ (if truthy json_body then [("body", PStr sb)] else [])
            ++ (if truthy params then [("params", PStr sp)] else []))%list
  /\ (forall fuel pipe_name timeout w h w1 r w' d message,
        establish_named_pipe_connection fuel pipe_name timeout w
        = Some (Return h, w1) ->
        send_named_pipe_request json_dumps json_loads size fuel pipe_name
          timeout method path params json_body w = Some (r, w') ->
        build_message_dict json_dumps method path params json_body
        = Return d ->
        json_dumps (PDict d) = Return message ->
        written (trace w') = (written (trace w) ++ [encode_utf8 message])%list)
  /\ build_message_dict json.dumps "GET" "/status" None None
     = Return [("method", PStr "GET"); ("path", PStr "/status")]
  /\ json.dumps (PDict [("method", PStr "GET"); ("path", PStr "/status")])
     = Return (dq "{'method': 'GET', 'path': '/status'}")
  /\ build_message_dict json.dumps "POST" "/run" None (Some [("x", PInt 1)])
     = Return [("method", PStr "POST"); ("path", PStr "/run");
               ("body", PStr (dq "{'x': 1}"))]
  /\ json.dumps (PDict [("method", PStr "POST"); ("path", PStr "/run");
                        ("body", PStr (dq "{'x': 1}"))])
     = Return (dq "{'method': 'POST', 'path': '/run', 'body': '{\'x\': 1}'}").
Proof.
  intros Hb Hp.
  split; [now apply build_message_dict_fields|].
  split.
  - intros fuel pipe_name timeout w h w1 r w' d message.
    apply send_writes_envelope.
  - repeat split; reflexivity.
Qed.

Lemma envelope_fields_witness :
  build_message_dict json.dumps "POST" "/run"
    (Some [("n", PInt 2)]) (Some [("x", PInt 1)])
  = Return [("method", PStr "POST"); ("path", PStr "/run");
            ("body", PStr (dq "{'x': 1}")); ("params", PStr (dq "{'n': 2}"))].
Proof.
  apply (proj1 (envelope_fields json.dumps json.loads 8192 "POST" "/run"
                  (Some [("n", PInt 2)]) (Some [("x", PInt 1)])
                  (dq "{'x': 1}") (dq "{'n': 2}")
                  (fun _ => eq_refl) (fun _ => eq_refl))).
Defined.

(** C10: an empty mapping given as params or as body leaves the
    envelope, and the whole call, as they are when the argument is not
    given; the envelope has the field exactly when the mapping is given and
    is not empty. *)
Theorem empty_mapping_is_left_out (json_dumps : pyval -> result string)
    (json_loads : string -> result pyval) (size : Z) (fuel : nat)
    (pipe_name : string) (timeout : Z) (method path : string)
    (params json_body : option Dict) (w : World) :
  build_message_dict json_dumps method path (Some []) json_body
  = build_message_dict json_dumps method path None json_body
  /\ build_message_dict json_dumps method path params (Some [])
     = build_message_dict json_dumps method path params None
  /\ send_named_pipe_request json_dumps json_loads size fuel pipe_name timeout
       method path (Some []) json_body w
     = send_named_pipe_request json_dumps json_loads size fuel pipe_name
         timeout method path None json_body w
  /\ send_named_pipe_request json_dumps json_loads size fuel pipe_name timeout
       method path params (Some []) w
     = send_named_pipe_request json_dumps json_loads size fuel pipe_name
         timeout method path params None w
  /\ (forall d,
        build_message_dict json_dumps method path params json_body
        = Return d ->
        (In "params" (map fst d) <->
         exists item rest, params = Some (item :: rest))
        /\ (In "body" (map fst d) <->
            exists item rest, json_body = Some (item :: rest))).
Proof.
  split; [reflexivity|]. split; [reflexivity|].
  split; [reflexivity|]. split; [reflexivity|].
  intros d Hd. apply build_message_dict_keys in Hd. rewrite Hd.
  assert (Ht : forall o : option Dict,
            truthy o = true <-> exists item rest, o = Some (item :: rest)).
  { intros [[|item rest]|]; cbn; split;
      try discriminate; eauto; intros (i & r & H); discriminate H. }
  rewrite <- !Ht.
  destruct (truthy json_body); destruct (truthy params); cbn;
    split; split; intros H; try reflexivity; try discriminate H;
    repeat (destruct H as [H|H]; try discriminate H); auto.
Qed.

Lemma empty_mapping_is_left_out_witness :
  In "body" (map fst [("method", PStr "GET"); ("path", PStr "/status")])
  <-> exists item rest, Some ([] : Dict) = Some (item :: rest).
Proof.
  destruct (empty_mapping_is_left_out json.dumps json.loads 8192 1 "pipe"
              1000 "GET" "/status" (Some []) (Some []) (Worlds.ready []))
    as (_ & _ & _ & _ & H).
  exact (proj2 (H [("method", PStr "GET"); ("path", PStr "/status")] eq_refl)).
Defined.

(** ** Instances *)

Lemma open_failure_retried_iff_transient_witness :
  (exists w',
     connect_loop 1 "pipe" 0 1000 Worlds.denied
     = Some (Raise (PywinError Worlds.access_denied), w')
     /\ opens_made w' = 1%nat)
  /\ connect_loop 2 "pipe" 0 1000 Worlds.never_ready
     = connect_loop 1 "pipe" 0 1000
         (after_sleep (after_open "pipe" Worlds.never_ready)).
Proof.
  split.
  - destruct (open_failure_retried_iff_transient 0 "pipe" 0 1000
                Worlds.denied Worlds.access_denied eq_refl) as (Hnot & _).
    destruct Hnot as (w' & Hrun & _ & Hopens & _).
    + cbn. intros [H | H]; discriminate H.
    + exists w'. split; [exact Hrun | exact Hopens].
  - destruct (open_failure_retried_iff_transient 1 "pipe" 0 1000
                Worlds.never_ready Worlds.file_not_found eq_refl)
      as (_ & Hyes & _).
    destruct Hyes as (_ & Heq); [left; reflexivity|].
    exact Heq.
Defined.

Lemma timeout_measured_before_sleep_witness :
  exists d e w',
    establish_named_pipe_connection 4 "pipe" 200 Worlds.never_ready
    = Some (Raise (NamedPipeTimeoutError d (PywinError e)), w')
    /\ 200 < d <= 200 + 100 + 0.
Proof.
  destruct (timeout_measured_before_sleep "pipe" 0 200 Worlds.file_not_found
              Worlds.never_ready Worlds.never_ready 0) as (_ & H).
  destruct H as (d & e & w' & Hrun & Hd & _).
  - intros i. exists Worlds.file_not_found.
    split; [reflexivity | left; reflexivity].
  - intros i. cbn. lia.
  - lia.
  - exists d, e, w'. split; [apply Hrun; vm_compute; lia | exact Hd].
Defined.

Lemma send_failure_kinds_witness :
  kind_of (new_PipeDisconnectedException (Worlds.broken_pipe "ReadFile"))
  = Some Disconnected
  /\ exists w',
       send_named_pipe_request json.dumps json.loads 8192 1 "pipe" 1000
         "GET" "/status" None None
         (Worlds.ready [ReadErr (Worlds.broken_pipe "ReadFile")])
       = Some (Raise (new_PipeDisconnectedException
                        (Worlds.broken_pipe "ReadFile")), w').
Proof.
  destruct (send_failure_kinds json.dumps json.loads 8192 1 "pipe" 1000
              "GET" "/status" None None
              (Worlds.ready [ReadErr (Worlds.broken_pipe "ReadFile")]))
    as (_ & Hclass & _).
  - do 2 eexists. split; reflexivity.
  - reflexivity.
  - split.
    + destruct (Hclass (Worlds.broken_pipe "ReadFile"))
        as [(_ & Heq & Hkind) | (Hno & _)]; [|discriminate Hno].
      rewrite <- Heq. exact Hkind.
    + eexists. vm_compute. reflexivity.
Defined.

Lemma response_decoding_witness :
  exists w',
    send_named_pipe_request json.dumps json.loads 8192 1 "pipe" 1000
      "GET" "/status" None None
      (Worlds.ready (message_mode_reads 8192 (encode_utf8 (dq "{'ok':true"))))
    = Some (Raise (JSONDecodeError (dq "{'ok':true")), w').
Proof.
  edestruct (response_decoding json.dumps json.loads 8192 1 "pipe" 1000
               "GET" "/status" None None
               (Worlds.ready
                  (message_mode_reads 8192 (encode_utf8 (dq "{'ok':true")))))
    as (Hbad & _).
  - vm_compute. reflexivity.
  - vm_compute. reflexivity.
  - vm_compute. reflexivity.
  - vm_compute. reflexivity.
  - vm_compute. reflexivity.
  - eexists. apply (Hbad (dq "{'ok':true")). vm_compute. reflexivity.
Defined.

(** * More of the module *)

(** ** UTF-8 *)

Lemma utf8_well_formed_app_bounded (n : nat) :
  forall a b : bytes,
    (List.length a <= n)%nat ->
    utf8_well_formed a = true -> utf8_well_formed b = true ->
    utf8_well_formed (a ++ b)%list = true.
Proof.
  induction n as [|n IH]; intros a b Hn Ha Hb.
  - destruct a; [exact Hb | cbn in Hn; lia].
  - destruct a as [|b0 t0]; [exact Hb|].
    cbn [List.length] in Hn.
    rewrite <- app_comm_cons.
    cbn [utf8_well_formed] in Ha |- *.
    destruct (in_range 0 127 b0); [apply IH; [lia | exact Ha | exact Hb]|].
    destruct t0 as [|b1 t1]; [discriminate|].
    cbn [List.length] in Hn. rewrite <- app_comm_cons.
    destruct (in_range 194 223 b0).
    { apply andb_true_iff in Ha. destruct Ha as [H1 Ha]. rewrite H1.
      apply IH; [lia | exact Ha | exact Hb]. }
    destruct t1 as [|b2 t2]; [discriminate|].
    cbn [List.length] in Hn. rewrite <- app_comm_cons.
    destruct (in_range 224 224 b0).
    { apply andb_true_iff in Ha. destruct Ha as [H1 Ha]. rewrite H1.
      apply IH; [lia | exact Ha | exact Hb]. }
    destruct (in_range 225 236 b0 || in_range 238 239 b0).
    { apply andb_true_iff in Ha. destruct Ha as [H1 Ha]. rewrite H1.
      apply IH; [lia | exact Ha | exact Hb]. }
    destruct (in_range 237 237 b0).
    { apply andb_true_iff in Ha. destruct Ha as [H1 Ha]. rewrite H1.
      apply IH; [lia | exact Ha | exact Hb]. }
    destruct t2 as [|b3 t3]; [discriminate|].
    cbn [List.length] in Hn. rewrite <- app_comm_cons.
    destruct (in_range 240 240 b0).
    { apply andb_true_iff in Ha. destruct Ha as [H1 Ha]. rewrite H1.
      apply IH; [lia | exact Ha | exact Hb]. }
    destruct (in_range 241 243 b0).
    { apply andb_true_iff in Ha. destruct Ha as [H1 Ha]. rewrite H1.
      apply IH; [lia | exact Ha | exact Hb]. }
    destruct (in_range 244 244 b0); [|discriminate].
    apply andb_true_iff in Ha. destruct Ha as [H1 Ha]. rewrite H1.
    apply IH; [lia | exact Ha | exact Hb].
Qed.

Lemma utf8_well_formed_app (a b : bytes) :
  utf8_well_formed a = true -> utf8_well_formed b = true ->
  utf8_well_formed (a ++ b)%list = true.
Proof. apply (utf8_well_formed_app_bounded (List.length a)). apply le_n. Qed.

Lemma utf8_well_formed_concat (chunks : list bytes) :
  forallb utf8_well_formed chunks = true ->
  utf8_well_formed (List.concat chunks) = true.
Proof.
  induction chunks as [|c chunks IH]; [reflexivity|].
  cbn [forallb List.concat]. intros H. apply andb_true_iff in H.
  destruct H as [Hc H]. apply utf8_well_formed_app; auto.
Qed.

Lemma ascii_well_formed (data : bytes) :
  is_ascii data = true -> utf8_well_formed data = true.
Proof.
  unfold is_ascii. induction data as [|b data IH]; [reflexivity|].
  cbn [forallb utf8_well_formed]. intros H. apply andb_true_iff in H.
  destruct H as [Hb H]. rewrite Hb. auto.
Qed.

Lemma ascii_chunks (chunks : list bytes) :
  is_ascii (List.concat chunks) = true ->
  forallb utf8_well_formed chunks = true.
Proof.
  unfold is_ascii. induction chunks as [|c chunks IH]; [reflexivity|].
  cbn [List.concat forallb]. rewrite forallb_app. intros H.
  apply andb_true_iff in H. destruct H as [Hc H].
  rewrite (ascii_well_formed c Hc). auto.
Qed.

(** ** Reading *)

Lemma after_reads_none (size : Z) (h : HANDLE) (w : World) :
  after_reads size h 0 (incoming w) w = w.
Proof.
  destruct w. unfold after_reads. cbn. now rewrite app_nil_r.
Qed.

Lemma after_reads_one_more (size : Z) (h : HANDLE) (k : nat)
    (rest0 rest : list read_outcome) (w : World) :
  log_event (EvReadFile h size)
    (set_incoming rest (after_reads size h k rest0 w))
  = after_reads size h (S k) rest w.
Proof.
  unfold after_reads, log_event, set_incoming. cbn [clock create_file_script
    opens_made set_state_script write_file_script incoming trace].
  f_equal. rewrite <- app_assoc. f_equal.
  cbn [repeat]. now rewrite repeat_cons.
Qed.

(** Chunks that announce more data are decoded and kept, one read
    each. *)
Lemma read_loop_more_data (size : Z) (chunks : list bytes) :
  forall f h parts w rest,
    forallb utf8_well_formed chunks = true ->
    incoming w = (more_data chunks ++ rest)%list ->
    read_from_pipe_loop size (List.length chunks + f) h parts w
    = read_from_pipe_loop size f h
        (parts ++ map string_of_list_byte chunks)%list
        (after_reads size h (List.length chunks) rest w).
Proof.
  induction chunks as [|c chunks IH]; intros f h parts w rest Hwf Hin.
  - cbn in Hin |- *. rewrite app_nil_r, <- Hin, after_reads_none.
    reflexivity.
  - cbn [forallb] in Hwf. apply andb_true_iff in Hwf.
    destruct Hwf as [Hc Hwf].
    cbn [List.length Nat.add read_from_pipe_loop]. unfold bind.
    rewrite read_step_eq.
    cbn [more_data map app] in Hin. rewrite Hin. cbv zeta. rewrite Hc.
    rewrite Z.eqb_refl.
    rewrite (IH f h _ _ rest Hwf) by reflexivity.
    cbn [map]. rewrite <- app_assoc. cbn [app].
    f_equal. unfold after_reads, log_event, set_incoming. cbn.
    now rewrite <- app_assoc.
Qed.

Lemma read_from_pipe_more_data (size : Z) (chunks : list bytes) h w rest :
  forallb utf8_well_formed chunks = true ->
  incoming w = (more_data chunks ++ rest)%list ->
  read_from_pipe size h w
  = read_from_pipe_loop size (S (List.length rest)) h
      (map string_of_list_byte chunks)
      (after_reads size h (List.length chunks) rest w).
Proof.
  intros Hwf Hin. unfold read_from_pipe.
  rewrite Hin, length_app. unfold more_data. rewrite length_map.
  rewrite <- Nat.add_succ_r.
  now rewrite (read_loop_more_data size chunks _ h [] w rest Hwf Hin).
Qed.

(** X1: a message that arrives in chunks, each of them well-formed
    UTF-8, is returned whole and unchanged: the text whose encoding the
    chunks make up.  The read takes one [ReadFile] for each chunk and
    leaves what follows the message unread. *)
Theorem read_returns_message_of_aligned_chunks (size : Z) (h : HANDLE)
    (message : string) (chunks : list bytes) (rest : list read_outcome)
    (w : World) :
  chunks <> [] ->
  List.concat chunks = encode_utf8 message ->
  forallb utf8_well_formed chunks = true ->
  incoming w = (deliver chunks ++ rest)%list ->
  exists w',
    read_from_pipe size h w = Some (Return message, w')
    /\ incoming w' = rest
    /\ trace w'
       = (trace w ++ repeat (EvReadFile h size) (List.length chunks))%list
    /\ clock w' = clock w.
Proof.
  intros Hne Hcat Hwf Hin. eexists. split.
  - rewrite (read_from_pipe_deliver size chunks h w rest Hne Hwf Hin).
    unfold encode_utf8 in Hcat.
    now rewrite Hcat, string_of_list_byte_of_string.
  - cbn. auto.
Qed.

(** X2: a message of ASCII characters is read back unchanged however
    the transport cuts it into chunks. *)
Theorem read_returns_ascii_message_in_any_chunks (size : Z) (h : HANDLE)
    (message : string) (chunks : list bytes) (w : World) :
  is_ascii (encode_utf8 message) = true ->
  chunks <> [] ->
  List.concat chunks = encode_utf8 message ->
  incoming w = deliver chunks ->
  exists w', read_from_pipe size h w = Some (Return message, w')
             /\ incoming w' = [].
Proof.
  intros Hascii Hne Hcat Hin. eexists. split.
  - rewrite (read_from_pipe_deliver size chunks h w [] Hne).
    + unfold encode_utf8 in Hcat.
      now rewrite Hcat, string_of_list_byte_of_string.
    + apply ascii_chunks. now rewrite Hcat.
    + now rewrite app_nil_r.
  - reflexivity.
Qed.

(** X3: two messages that wait in the pipe are returned by two reads,
    in their order, each whole: a read stops at the end of its message. *)
Theorem two_reads_return_two_messages (size : Z) (h : HANDLE)
    (first second : list bytes) (w : World) :
  first <> [] -> second <> [] ->
  forallb utf8_well_formed first = true ->
  forallb utf8_well_formed second = true ->
  incoming w = (deliver first ++ deliver second)%list ->
  exists w1 w2,
    read_from_pipe size h w
    = Some (Return (string_of_list_byte (List.concat first)), w1)
    /\ read_from_pipe size h w1
       = Some (Return (string_of_list_byte (List.concat second)), w2)
    /\ incoming w2 = []
    /\ trace w2
       = (trace w ++ repeat (EvReadFile h size)
                       (List.length first + List.length second))%list.
Proof.
  intros Hn1 Hn2 Hw1 Hw2 Hin. do 2 eexists. split; [|split; [|split]].
  - exact (read_from_pipe_deliver size first h w _ Hn1 Hw1 Hin).
  - apply (read_from_pipe_deliver size second h _ [] Hn2 Hw2).
    cbn. now rewrite app_nil_r.
  - reflexivity.
  - cbn. now rewrite <- app_assoc, repeat_app.
Qed.

(** X4: a [ReadFile] that returns a code other than [NO_ERROR] and
    [ERROR_MORE_DATA] makes the read raise [IOError] with the code in its
    message; the chunks read before are dropped and nothing more is
    read. *)
Theorem read_raises_on_unexpected_return_code (size : Z) (h : HANDLE)
    (chunks : list bytes) (code : Z) (data : bytes)
    (rest : list read_outcome) (w : World) :
  forallb utf8_well_formed chunks = true ->
  utf8_well_formed data = true ->
  code <> ERROR_MORE_DATA -> code <> NO_ERROR ->
  incoming w = (more_data chunks ++ ReadOk code data :: rest)%list ->
  read_from_pipe size h w
  = Some (Raise (IOError
            ("Got error when reading from the Named Pipe with error code: "
             ++ str_of_int code)),
          after_reads size h (S (List.length chunks)) rest w).
Proof.
  intros Hwf Hdata Hmore Hno Hin.
  rewrite (read_from_pipe_more_data size chunks h w _ Hwf Hin).
  cbn [read_from_pipe_loop]. unfold bind. rewrite read_step_eq.
  cbn [incoming after_reads]. cbv zeta. rewrite Hdata.
  apply Z.eqb_neq in Hmore, Hno. rewrite Hmore, Hno.
  now rewrite after_reads_one_more.
Qed.

Lemma read_from_pipe_raises_error (size : Z) (h : HANDLE)
    (chunks : list bytes) (e : pywin_error) (rest : list read_outcome)
    (w : World) :
  forallb utf8_well_formed chunks = true ->
  incoming w = (more_data chunks ++ ReadErr e :: rest)%list ->
  read_from_pipe size h w
  = Some (Raise (_handle_pipe_exception e),
          after_reads size h (S (List.length chunks)) rest w).
Proof.
  intros Hwf Hin.
  rewrite (read_from_pipe_more_data size chunks h w _ Hwf Hin).
  cbn [read_from_pipe_loop]. unfold bind. rewrite read_step_eq.
  cbn [incoming after_reads]. cbv zeta.
  now rewrite after_reads_one_more.
Qed.

(** X5: a [ReadFile] that raises in the middle of a message ends the
    read with what the classifier makes of the error: a
    [PipeDisconnectedException] for the three disconnection codes, the
    error itself otherwise.  The chunks read before are dropped. *)
Theorem read_raises_classified_error (size : Z) (h : HANDLE)
    (chunks : list bytes) (e : pywin_error) (rest : list read_outcome)
    (w : World) :
  forallb utf8_well_formed chunks = true ->
  incoming w = (more_data chunks ++ ReadErr e :: rest)%list ->
  read_from_pipe size h w
  = Some (Raise (_handle_pipe_exception e),
          after_reads size h (S (List.length chunks)) rest w)
  /\ (is_disconnect e = true ->
      _handle_pipe_exception e = new_PipeDisconnectedException e)
  /\ (is_disconnect e = false -> _handle_pipe_exception e = PywinError e).
Proof.
  intros Hwf Hin. split; [|split].
  - now apply read_from_pipe_raises_error.
  - unfold _handle_pipe_exception, is_disconnect. now intros ->.
  - unfold _handle_pipe_exception, is_disconnect. now intros ->.
Qed.

(** X6: a message whose last chunk never comes is never returned: the
    read does not give back a part of a message, it blocks. *)
Theorem read_blocks_on_unfinished_message (size : Z) (h : HANDLE)
    (chunks : list bytes) (w : World) :
  forallb utf8_well_formed chunks = true ->
  incoming w = more_data chunks ->
  read_from_pipe size h w = None.
Proof.
  intros Hwf Hin.
  rewrite (read_from_pipe_more_data size chunks h w [] Hwf)
    by now rewrite app_nil_r.
  cbn [read_from_pipe_loop List.length]. unfold bind.
  rewrite read_step_eq. reflexivity.
Qed.

(** X7: a read that returns a text has taken exactly one whole
    message off the pipe, with one [ReadFile] for each of its chunks, and
    the text is the UTF-8 decoding of the bytes of the chunks put
    together. *)
Theorem read_result_is_decoded_message (size : Z) (h : HANDLE) (w w' : World)
    (text : string) :
  read_from_pipe size h w = Some (Return text, w') ->
  exists chunks,
    chunks <> []
    /\ incoming w = (deliver chunks ++ incoming w')%list
    /\ decode_utf8 (List.concat chunks) = Return text
    /\ trace w'
       = (trace w ++ repeat (EvReadFile h size) (List.length chunks))%list.
Proof.
  intros Hread. pose proof Hread as Hinv. unfold read_from_pipe in Hinv.
  apply read_loop_returns in Hinv.
  destruct Hinv as (chunks & Hne & Hin & Hwf & Htext).
  exists chunks. split; [exact Hne|]. split; [exact Hin|].
  cbn in Htext. subst text. split.
  - unfold decode_utf8. now rewrite utf8_well_formed_concat.
  - rewrite (read_from_pipe_deliver size chunks h w _ Hne Hwf Hin) in Hread.
    injection Hread as <-. reflexivity.
Qed.

(** ** Connecting *)

(** The loop connects at the open that succeeds when every open before
    it failed with a transient code no later than the timeout. *)
Lemma connect_loop_connects (n : nat) :
  forall fuel pipe_name start_time timeout w h,
    (n < fuel)%nat ->
    (forall i, (i < n)%nat ->
       exists e, outcome (create_file_script w (opens_made w + i)) = inl e
                 /\ is_transient e = true) ->
    outcome (create_file_script w (opens_made w + n)) = inr h ->
    (forall i, (i < n)%nat ->
       clock w - start_time
       + total_latency (create_file_script w) (opens_made w) (S i)
       + 100 * Z.of_nat i <= timeout) ->
    exists w',
      connect_loop fuel pipe_name start_time timeout w = Some (Return h, w')
      /\ clock w'
         = clock w + total_latency (create_file_script w) (opens_made w) (S n)
           + 100 * Z.of_nat n
      /\ opens_made w' = (opens_made w + S n)%nat
      /\ trace w' = (trace w ++ turns pipe_name n
                     ++ [EvCreateFile pipe_name])%list.
Proof.
  induction n as [|n IH];
    intros fuel pipe_name start_time timeout w h Hfuel Hfail Hok Hin.
  - destruct fuel as [|fuel]; [lia|].
    rewrite connect_loop_S. cbv zeta.
    rewrite Nat.add_0_r in Hok. rewrite Hok.
    eexists. split; [reflexivity|]. cbn. split; [lia|]. split; [lia|].
    reflexivity.
  - destruct fuel as [|fuel]; [lia|].
    rewrite connect_loop_S. cbv zeta.
    destruct (Hfail 0%nat ltac:(lia)) as (e & He & Htr).
    rewrite Nat.add_0_r in He. rewrite He, Htr.
    pose proof (Hin 0%nat ltac:(lia)) as H0. cbn in H0.
    destruct (Z.gtb_spec (clock (after_open pipe_name w) - start_time) timeout)
      as [Hgt|_]; [cbn in Hgt; lia|].
    destruct (IH fuel pipe_name start_time timeout
                (after_sleep (after_open pipe_name w)) h)
      as (w' & Hrun & Hclock & Hopens & Htrace).
    + lia.
    + intros i Hi. cbn. destruct (Hfail (S i) ltac:(lia)) as (e' & He' & Htr').
      exists e'. rewrite <- Nat.add_succ_r. auto.
    + cbn. now rewrite <- Nat.add_succ_r.
    + intros i Hi. pose proof (Hin (S i) ltac:(lia)) as HSi.
      cbn [total_latency] in HSi |- *. cbn [clock after_sleep after_open
        log_event advance count_open opens_made create_file_script].
      rewrite Nat2Z.inj_succ in HSi. unfold SLEEP_MS. cbn [total_latency]. lia.
    + exists w'. split; [exact Hrun|].
      cbn [clock after_sleep after_open log_event advance count_open
           opens_made create_file_script trace] in Hclock, Hopens, Htrace.
      split; [|split].
      * rewrite Hclock. cbn [total_latency]. rewrite Nat2Z.inj_succ.
        unfold SLEEP_MS. lia.
      * lia.
      * rewrite Htrace. unfold turns. cbn. now rewrite <- !app_assoc.
Qed.

(** X8: when the server starts to listen at the open number [n]
    (counted from 0), every open before fails with a transient code, each
    of these failures comes no later than the timeout, and the mode is
    set without error, the call returns the handle of that open after
    [n] sleeps of 100 ms and [n + 1] opens. *)
Theorem establish_connects_when_server_becomes_ready (n fuel : nat)
    (pipe_name : string) (timeout : Z) (w : World) (h : HANDLE) :
  (n < fuel)%nat ->
  (forall i, (i < n)%nat ->
     exists e, outcome (create_file_script w (opens_made w + i)) = inl e
               /\ (winerror e = ERROR_FILE_NOT_FOUND
                   \/ winerror e = ERROR_PIPE_BUSY)) ->
  outcome (create_file_script w (opens_made w + n)) = inr h ->
  (forall i, (i < n)%nat ->
     total_latency (create_file_script w) (opens_made w) (S i)
     + 100 * Z.of_nat i <= timeout) ->
  set_state_script w = None ->
  exists w',
    establish_named_pipe_connection fuel pipe_name timeout w
    = Some (Return h, w')
    /\ clock w'
       = clock w + total_latency (create_file_script w) (opens_made w) (S n)
         + 100 * Z.of_nat n
    /\ opens_made w' = (opens_made w + S n)%nat
    /\ trace w' = (trace w ++ turns pipe_name n
                   ++ [EvCreateFile pipe_name;
                       EvSetNamedPipeHandleState h])%list.
Proof.
  intros Hfuel Hfail Hok Hin Hset.
  destruct (connect_loop_connects n fuel pipe_name (clock w) timeout w h)
    as (w1 & Hrun & Hclock & Hopens & Htrace); auto.
  - intros i Hi. destruct (Hfail i Hi) as (e & He & Hcode).
    exists e. split; [exact He | now apply is_transient_codes].
  - intros i Hi. specialize (Hin i Hi). lia.
  - rewrite establish_eq, Hrun. cbv zeta.
    pose proof (connect_loop_frame _ _ _ _ _ _ _ Hrun) as ((_ & Hs & _) & _).
    rewrite Hs, Hset. eexists. split; [reflexivity|].
    cbn. split; [exact Hclock|]. split; [exact Hopens|].
    rewrite Htrace, <- !app_assoc. reflexivity.
Qed.

(** Whatever the server does, the loop ends once the clock has run
    past the timeout. *)
Lemma connect_loop_terminates (fuel : nat) :
  forall pipe_name start_time timeout w,
    (forall i, 0 <= latency (create_file_script w i)) ->
    (1 <= fuel)%nat ->
    timeout - (clock w - start_time) < 100 * Z.of_nat fuel - 100 ->
    exists r w',
      connect_loop fuel pipe_name start_time timeout w = Some (r, w')
      /\ (opens_made w' <= opens_made w + fuel)%nat.
Proof.
  induction fuel as [|fuel IH];
    intros pipe_name start_time timeout w Hlat Hfuel Hmeasure; [lia|].
  rewrite connect_loop_S. cbv zeta.
  destruct (outcome (create_file_script w (opens_made w))) as [e|h].
  2:{ do 2 eexists. split; [reflexivity|]. cbn. lia. }
  destruct (is_transient e).
  2:{ do 2 eexists. split; [reflexivity|]. cbn. lia. }
  pose proof (Hlat (opens_made w)) as Hl.
  destruct (Z.gtb_spec (clock (after_open pipe_name w) - start_time) timeout)
    as [Hgt|Hle].
  { do 2 eexists. split; [reflexivity|]. cbn. lia. }
  cbn in Hle.
  destruct (IH pipe_name start_time timeout
              (after_sleep (after_open pipe_name w)))
    as (r & w' & Hrun & Hopens).
  - exact Hlat.
  - destruct fuel; [exfalso|lia].
    change (Z.of_nat 1) with 1 in Hmeasure. lia.
  - unfold after_sleep, after_open, SLEEP_MS.
    cbn [clock log_event advance count_open].
    rewrite Nat2Z.inj_succ in Hmeasure. lia.
  - exists r, w'. split; [exact Hrun|]. cbn in Hopens. lia.
Qed.

(** X9: when no open takes a negative time the call to connect always
    ends, whatever the server answers, and it makes no more than
    [timeout / 100 + 2] opens (the timeout in milliseconds). *)
Theorem establish_ends_within_bounded_opens (pipe_name : string)
    (timeout : Z) (w : World) :
  (forall i, 0 <= latency (create_file_script w i)) ->
  0 <= timeout ->
  exists r w',
    (forall fuel, (Z.to_nat (timeout / 100) + 2 <= fuel)%nat ->
       establish_named_pipe_connection fuel pipe_name timeout w
       = Some (r, w'))
    /\ (opens_made w' <= opens_made w + (Z.to_nat (timeout / 100) + 2))%nat.
Proof.
  intros Hlat Htimeout.
  set (N := (Z.to_nat (timeout / 100) + 2)%nat).
  destruct (connect_loop_terminates N pipe_name (clock w) timeout w Hlat)
    as (r & w1 & Hrun & Hopens).
  - unfold N. lia.
  - unfold N. rewrite Nat2Z.inj_add, Z2Nat.id by (apply Z.div_pos; lia).
    pose proof (Z.mod_pos_bound timeout 100 ltac:(lia)).
    pose proof (Z.div_mod timeout 100 ltac:(lia)). lia.
  - assert (Hest : forall fuel, (N <= fuel)%nat ->
      establish_named_pipe_connection fuel pipe_name timeout w
      = match r with
        | Raise e => Some (Raise e, w1)
        | Return h =>
          match set_state_script w1 with
          | Some e =>
            Some (Raise (PywinError e),
                  log_event (EvSetNamedPipeHandleState h) w1)
          | None =>
            Some (Return h, log_event (EvSetNamedPipeHandleState h) w1)
          end
        end).
    { intros fuel Hfuel. rewrite establish_eq.
      rewrite (connect_loop_more_fuel _ _ _ _ _ _ _ Hrun Hfuel).
      destruct r; reflexivity. }
    destruct r as [h|e].
    + destruct (set_state_script w1) eqn:Hs; do 2 eexists;
        (split; [exact Hest | exact Hopens]).
    + do 2 eexists. split; [exact Hest | exact Hopens].
Qed.

(** X10: when the first open fails with a transient code after more
    time than the timeout allows - as with any negative timeout - the call
    makes this one open, still sleeps 100 ms, and raises the timeout with
    the time the open took. *)
Theorem establish_times_out_after_one_open (fuel : nat) (pipe_name : string)
    (timeout : Z) (w : World) (e : pywin_error) :
  outcome (create_file_script w (opens_made w)) = inl e ->
  winerror e = ERROR_FILE_NOT_FOUND \/ winerror e = ERROR_PIPE_BUSY ->
  timeout < latency (create_file_script w (opens_made w)) ->
  exists w',
    establish_named_pipe_connection (S fuel) pipe_name timeout w
    = Some (Raise (NamedPipeTimeoutError
                     (latency (create_file_script w (opens_made w)))
                     (PywinError e)), w')
    /\ opens_made w' = S (opens_made w)
    /\ clock w'
       = clock w + latency (create_file_script w (opens_made w)) + 100
    /\ trace w'
       = (trace w
          ++ [EvCreateFile pipe_name; EvSleep 100;
              EvLogError
                (LogReadinessTimeout
                   (latency (create_file_script w (opens_made w)))
                   timeout)])%list.
Proof.
  intros He Hcode Hlate. apply is_transient_codes in Hcode.
  rewrite establish_eq, connect_loop_S. cbv zeta. rewrite He, Hcode.
  cbn [clock after_open log_event count_open advance].
  replace (clock w + latency (create_file_script w (opens_made w)) - clock w)
    with (latency (create_file_script w (opens_made w))) by lia.
  destruct (Z.gtb_spec (latency (create_file_script w (opens_made w))) timeout)
    as [_|Hle]; [|lia].
  eexists. split; [reflexivity|]. cbn. split; [reflexivity|].
  split; [unfold SLEEP_MS; lia|].
  rewrite <- !app_assoc. reflexivity.
Qed.

(** ** The exchange *)

Lemma disconnect_is_wrapped (e : pywin_error) :
  is_disconnect e = true ->
  _handle_pipe_exception e = new_PipeDisconnectedException e.
Proof. unfold _handle_pipe_exception, is_disconnect. now intros ->. Qed.

Lemma reads_app (t1 t2 : list event) :
  reads (t1 ++ t2) = (reads t1 + reads t2)%nat.
Proof. unfold reads. now rewrite filter_app, length_app. Qed.

Lemma reads_before_exchange (evs : list event) :
  forallb before_exchange evs = true -> reads evs = 0%nat.
Proof.
  unfold reads. induction evs as [|ev evs IH]; [reflexivity|].
  cbn [forallb filter]. intros H. apply andb_true_iff in H.
  destruct H as [Hev H]. destruct ev; cbn in *; auto; discriminate.
Qed.

Section Exchange.

Variable json_dumps : pyval -> result string.
Variable json_loads : string -> result pyval.
Variable size : Z.

(** What a connected call adds to the trace: nothing or one write
    followed by reads, and then the close. *)
Lemma send_events fuel pipe_name timeout method path params json_body
    w h w1 r w' :
  establish_named_pipe_connection fuel pipe_name timeout w
  = Some (Return h, w1) ->
  send_named_pipe_request json_dumps json_loads size fuel pipe_name timeout
    method path params json_body w = Some (r, w') ->
  clock w' = clock w1 /\ opens_made w' = opens_made w1 /\ same_env w1 w'
  /\ exists evs,
       trace w' = (trace w1 ++ evs ++ [EvClose h])%list
       /\ (evs = []
           \/ exists message k,
                evs = EvWriteFile h (encode_utf8 message)
                      :: repeat (EvReadFile h size) k).
Proof.
  intros Hest Hsend. rewrite send_eq, Hest in Hsend.
  destruct (build_message_dict json_dumps method path params json_body)
    as [d|e].
  2:{ injection Hsend as _ <-. cbn. repeat split. exists []. auto. }
  destruct (json_dumps (PDict d)) as [message|e].
  2:{ injection Hsend as _ <-. cbn. repeat split. exists []. auto. }
  cbv zeta in Hsend.
  destruct (write_file_script w1 (encode_utf8 message)).
  { injection Hsend as _ <-. cbn. repeat split.
    exists [EvWriteFile h (encode_utf8 message)].
    rewrite <- app_assoc. split; [reflexivity|].
    right. exists message, 0%nat. reflexivity. }
  destruct (read_from_pipe size h _) as [[[text|e] w3]|] eqn:Hread;
    [| |discriminate].
  all: injection Hsend as _ <-.
  all: unfold read_from_pipe in Hread; apply read_loop_frame in Hread.
  all: destruct Hread as (k & Hw3 & _).
  all: rewrite Hw3; cbn; repeat split.
  all: exists (EvWriteFile h (encode_utf8 message)
               :: repeat (EvReadFile h size) k).
  all: rewrite <- !app_assoc; split; [reflexivity|].
  all: right; exists message, k; reflexivity.
Qed.

(** X11: when the connection cannot be established the call ends as
    the connecting ended, with the same exception and in the same state:
    nothing is written, nothing is read and nothing is closed. *)
Theorem send_passes_on_connect_failure fuel pipe_name timeout method path
    params json_body w e w1 :
  establish_named_pipe_connection fuel pipe_name timeout w
  = Some (Raise e, w1) ->
  send_named_pipe_request json_dumps json_loads size fuel pipe_name timeout
    method path params json_body w = Some (Raise e, w1)
  /\ exists evs,
       trace w1 = (trace w ++ evs)%list
       /\ written evs = [] /\ reads evs = 0%nat
       /\ forall h, closes h evs = 0%nat.
Proof.
  intros Hest. split; [now rewrite send_eq, Hest|].
  apply establish_frame in Hest. destruct Hest as (_ & _ & evs & Ht & Hev).
  exists evs. split; [exact Ht|].
  split; [now apply written_before_exchange|].
  split; [now apply reads_before_exchange|].
  intros h. now apply closes_before_exchange.
Qed.

(** X12: the request is serialised after the connection is
    established.  A body, params or envelope that [json.dumps] refuses
    makes the call raise the exception of [json.dumps] once the handle is
    closed; nothing was written.  The body is serialised before the
    params: when both are refused the exception is that of the body. *)
Theorem send_closes_when_request_does_not_serialise fuel pipe_name timeout
    method path params json_body w h w1 e :
  establish_named_pipe_connection fuel pipe_name timeout w
  = Some (Return h, w1) ->
  (build_message_dict json_dumps method path params json_body = Raise e
   \/ exists d,
        build_message_dict json_dumps method path params json_body = Return d
        /\ json_dumps (PDict d) = Raise e) ->
  send_named_pipe_request json_dumps json_loads size fuel pipe_name timeout
    method path params json_body w
  = Some (Raise e, log_event (EvClose h) w1)
  /\ (forall eb, truthy json_body = true ->
        json_dumps (as_pyval json_body) = Raise eb ->
        build_message_dict json_dumps method path params json_body = Raise eb)
  /\ (forall sb ep, truthy params = true ->
        (truthy json_body = true ->
         json_dumps (as_pyval json_body) = Return sb) ->
        json_dumps (as_pyval params) = Raise ep ->
        build_message_dict json_dumps method path params json_body = Raise ep).
Proof.
  intros Hest Hfail. split; [|split].
  - rewrite send_eq, Hest.
    destruct Hfail as [-> | (d & -> & ->)]; reflexivity.
  - intros eb Hb Heb. unfold build_message_dict. now rewrite Hb, Heb.
  - intros sb ep Hp Hsb Hep. unfold build_message_dict.
    destruct (truthy json_body).
    + rewrite (Hsb eq_refl). cbn. now rewrite Hp, Hep.
    + cbn. now rewrite Hp, Hep.
Qed.

(** X13: when [WriteFile] fails the call raises what the classifier
    makes of the error - a [PipeDisconnectedException] when the peer has
    gone - and closes the handle; it does not try to read. *)
Theorem send_fails_when_write_fails fuel pipe_name timeout method path
    params json_body w h w1 d message e :
  establish_named_pipe_connection fuel pipe_name timeout w
  = Some (Return h, w1) ->
  build_message_dict json_dumps method path params json_body = Return d ->
  json_dumps (PDict d) = Return message ->
  write_file_script w (encode_utf8 message) = Some e ->
  exists w',
    send_named_pipe_request json_dumps json_loads size fuel pipe_name timeout
      method path params json_body w
    = Some (Raise (_handle_pipe_exception e), w')
    /\ trace w' = (trace w1 ++ [EvWriteFile h (encode_utf8 message);
                                EvClose h])%list
    /\ incoming w' = incoming w
    /\ (is_disconnect e = true ->
        _handle_pipe_exception e = new_PipeDisconnectedException e).
Proof.
  intros Hest Hd Hm Hw. rewrite send_eq, Hest, Hd, Hm. cbv zeta.
  apply establish_frame in Hest. destruct Hest as ((_ & _ & Hws) & Hi & _).
  rewrite Hws, Hw. eexists. split; [reflexivity|].
  cbn [trace incoming log_event].
  split; [now rewrite <- app_assoc|]. split; [exact Hi|].
  apply disconnect_is_wrapped.
Qed.

(** X14: when a [ReadFile] fails in the middle of the reply the call
    raises what the classifier makes of the error - a
    [PipeDisconnectedException] when the peer has gone - and closes the
    handle; the part of the reply that was read is dropped and the parser
    is not called. *)
Theorem send_fails_when_read_fails fuel pipe_name timeout method path
    params json_body w h w1 d message chunks e rest :
  establish_named_pipe_connection fuel pipe_name timeout w
  = Some (Return h, w1) ->
  build_message_dict json_dumps method path params json_body = Return d ->
  json_dumps (PDict d) = Return message ->
  write_file_script w (encode_utf8 message) = None ->
  forallb utf8_well_formed chunks = true ->
  incoming w = (more_data chunks ++ ReadErr e :: rest)%list ->
  exists w',
    send_named_pipe_request json_dumps json_loads size fuel pipe_name timeout
      method path params json_body w
    = Some (Raise (_handle_pipe_exception e), w')
    /\ trace w'
       = (trace w1 ++ EvWriteFile h (encode_utf8 message)
          :: repeat (EvReadFile h size) (S (List.length chunks))
          ++ [EvClose h])%list
    /\ incoming w' = rest
    /\ (is_disconnect e = true ->
        _handle_pipe_exception e = new_PipeDisconnectedException e).
Proof.
  intros Hest Hd Hm Hw Hwf Hin. rewrite send_eq, Hest, Hd, Hm. cbv zeta.
  apply establish_frame in Hest. destruct Hest as ((_ & _ & Hws) & Hi & _).
  rewrite Hws, Hw.
  rewrite (read_from_pipe_raises_error size h chunks e rest)
    by (auto; cbn; congruence).
  eexists. split; [reflexivity|]. cbn [trace incoming log_event after_reads].
  split; [now rewrite <- !app_assoc|]. split; [reflexivity|].
  apply disconnect_is_wrapped.
Qed.

(** X15: the order of a call that returns or raises.  First come the
    events of connecting, none of them a write, a read or a close.  If the
    connection was established there follow at most one write, then reads
    on the same handle, each for the size of the buffer, and last of all
    the one close; the clock does not move after the connection. *)
Theorem send_trace_order fuel pipe_name timeout method path params json_body
    w h w1 r w' :
  establish_named_pipe_connection fuel pipe_name timeout w
  = Some (Return h, w1) ->
  send_named_pipe_request json_dumps json_loads size fuel pipe_name timeout
    method path params json_body w = Some (r, w') ->
  clock w' = clock w1
  /\ exists before evs,
       trace w' = (trace w ++ before ++ evs ++ [EvClose h])%list
       /\ forallb before_exchange before = true
       /\ (evs = []
           \/ exists message k,
                evs = EvWriteFile h (encode_utf8 message)
                      :: repeat (EvReadFile h size) k).
Proof.
  intros Hest Hsend.
  destruct (send_events _ _ _ _ _ _ _ _ _ _ _ _ Hest Hsend)
    as (Hclock & _ & _ & evs & Ht & Hshape).
  apply establish_frame in Hest.
  destruct Hest as (_ & _ & before & Hb & Hbefore).
  split; [exact Hclock|]. exists before, evs.
  split; [|split; [exact Hbefore | exact Hshape]].
  rewrite Ht, Hb, <- !app_assoc. reflexivity.
Qed.

(** X16: the timeout bounds the connecting only.  When the call is
    connected and has written its request and the peer sends no reply, or
    a reply it does not finish, the call never returns. *)
Theorem send_blocks_when_peer_does_not_reply fuel pipe_name timeout method
    path params json_body w h w1 d message chunks :
  establish_named_pipe_connection fuel pipe_name timeout w
  = Some (Return h, w1) ->
  build_message_dict json_dumps method path params json_body = Return d ->
  json_dumps (PDict d) = Return message ->
  write_file_script w (encode_utf8 message) = None ->
  forallb utf8_well_formed chunks = true ->
  incoming w = more_data chunks ->
  send_named_pipe_request json_dumps json_loads size fuel pipe_name timeout
    method path params json_body w = None.
Proof.
  intros Hest Hd Hm Hw Hwf Hin. rewrite send_eq, Hest, Hd, Hm. cbv zeta.
  apply establish_frame in Hest. destruct Hest as ((_ & _ & Hws) & Hi & _).
  rewrite Hws, Hw.
  rewrite (read_from_pipe_more_data size chunks h _ [] Hwf)
    by (cbn; rewrite app_nil_r; congruence).
  cbn [read_from_pipe_loop List.length]. unfold bind.
  rewrite read_step_eq. reflexivity.
Qed.

(** X17: two calls, one after the other, each with a connection of its
    own: when the handles differ, each of them is closed once in the two
    calls together, the first before the second call begins. *)
Theorem two_calls_close_their_own_handles fuel pipe_name timeout
    method1 path1 params1 body1 method2 path2 params2 body2
    w h1 w1 r1 w' h2 w2 r2 w'' :
  establish_named_pipe_connection fuel pipe_name timeout w
  = Some (Return h1, w1) ->
  send_named_pipe_request json_dumps json_loads size fuel pipe_name timeout
    method1 path1 params1 body1 w = Some (r1, w') ->
  establish_named_pipe_connection fuel pipe_name timeout w'
  = Some (Return h2, w2) ->
  send_named_pipe_request json_dumps json_loads size fuel pipe_name timeout
    method2 path2 params2 body2 w' = Some (r2, w'') ->
  h1 <> h2 ->
  exists evs1 evs2,
    trace w' = (trace w ++ evs1)%list
    /\ trace w'' = (trace w ++ evs1 ++ evs2)%list
    /\ closes h1 evs1 = 1%nat /\ closes h2 evs1 = 0%nat
    /\ closes h1 evs2 = 0%nat /\ closes h2 evs2 = 1%nat.
Proof.
  intros Hest1 Hsend1 Hest2 Hsend2 Hne.
  assert (Hcount : forall fuel' method path params body wa h wb r wc h',
    establish_named_pipe_connection fuel' pipe_name timeout wa
    = Some (Return h, wb) ->
    send_named_pipe_request json_dumps json_loads size fuel' pipe_name timeout
      method path params body wa = Some (r, wc) ->
    exists evs, trace wc = (trace wa ++ evs)%list
                /\ closes h' evs = if h' =? h then 1%nat else 0%nat).
  { intros fuel' method path params body wa h wb r wc h' He Hs.
    destruct (send_events _ _ _ _ _ _ _ _ _ _ _ _ He Hs)
      as (_ & _ & _ & evs & Ht & Hshape).
    apply establish_frame in He.
    destruct He as (_ & _ & before & Hb & Hbefore).
    exists (before ++ evs ++ [EvClose h])%list. split.
    - rewrite Ht, Hb, <- !app_assoc. reflexivity.
    - rewrite !closes_app, (closes_before_exchange h' before Hbefore).
      assert (Hevs : closes h' evs = 0%nat).
      { destruct Hshape as [-> | (message & k & ->)]; [reflexivity|].
        change (EvWriteFile h (encode_utf8 message)
                :: repeat (EvReadFile h size) k)
          with ([EvWriteFile h (encode_utf8 message)]
                ++ repeat (EvReadFile h size) k)%list.
        rewrite closes_app, closes_reads. reflexivity. }
      rewrite Hevs. unfold closes. cbn.
      destruct (h' =? h); reflexivity. }
  destruct (Hcount _ _ _ _ _ _ _ _ _ _ h1 Hest1 Hsend1) as (evs1 & Ht1 & Hc11).
  destruct (Hcount _ _ _ _ _ _ _ _ _ _ h2 Hest1 Hsend1) as (evs1' & Ht1' & Hc21).
  destruct (Hcount _ _ _ _ _ _ _ _ _ _ h1 Hest2 Hsend2) as (evs2 & Ht2 & Hc12).
  destruct (Hcount _ _ _ _ _ _ _ _ _ _ h2 Hest2 Hsend2) as (evs2' & Ht2' & Hc22).
  assert (evs1' = evs1)
    by (apply (app_inv_head (trace w)); congruence).
  subst evs1'.
  assert (evs2' = evs2)
    by (apply (app_inv_head (trace w')); congruence).
  subst evs2'.
  rewrite Z.eqb_refl in Hc11, Hc22.
  assert (Hn12 : (h1 =? h2) = false) by now apply Z.eqb_neq.
  assert (Hn21 : (h2 =? h1) = false) by (apply Z.eqb_neq; congruence).
  rewrite Hn21 in Hc21. rewrite Hn12 in Hc12.
  exists evs1, evs2. split; [exact Ht1|]. split.
  - rewrite Ht2, Ht1, <- app_assoc. reflexivity.
  - auto.
Qed.

End Exchange.

(** ** What the parts raise *)

(** The loop gives up at the open that fails with a code that is not
    transient when every open before it failed with a transient code no
    later than the timeout. *)
Lemma connect_loop_gives_up (n : nat) :
  forall fuel pipe_name start_time timeout w e,
    (n < fuel)%nat ->
    (forall i, (i < n)%nat ->
       exists e', outcome (create_file_script w (opens_made w + i)) = inl e'
                  /\ is_transient e' = true) ->
    outcome (create_file_script w (opens_made w + n)) = inl e ->
    is_transient e = false ->
    (forall i, (i < n)%nat ->
       clock w - start_time
       + total_latency (create_file_script w) (opens_made w) (S i)
       + 100 * Z.of_nat i <= timeout) ->
    exists w',
      connect_loop fuel pipe_name start_time timeout w
      = Some (Raise (PywinError e), w')
      /\ clock w'
         = clock w + total_latency (create_file_script w) (opens_made w) (S n)
           + 100 * Z.of_nat n
      /\ opens_made w' = (opens_made w + S n)%nat
      /\ trace w' = (trace w ++ turns pipe_name n
                     ++ [EvCreateFile pipe_name;
                         EvLogError (LogCouldNotOpen e)])%list.
Proof.
  induction n as [|n IH];
    intros fuel pipe_name start_time timeout w e Hfuel Hfail Hbad Hnot Hin.
  - destruct fuel as [|fuel]; [lia|].
    rewrite connect_loop_S. cbv zeta.
    rewrite Nat.add_0_r in Hbad. rewrite Hbad, Hnot.
    eexists. split; [reflexivity|]. cbn. split; [lia|]. split; [lia|].
    now rewrite <- app_assoc.
  - destruct fuel as [|fuel]; [lia|].
    rewrite connect_loop_S. cbv zeta.
    destruct (Hfail 0%nat ltac:(lia)) as (e0 & He & Htr).
    rewrite Nat.add_0_r in He. rewrite He, Htr.
    pose proof (Hin 0%nat ltac:(lia)) as H0. cbn in H0.
    destruct (Z.gtb_spec (clock (after_open pipe_name w) - start_time) timeout)
      as [Hgt|_]; [cbn in Hgt; lia|].
    destruct (IH fuel pipe_name start_time timeout
                (after_sleep (after_open pipe_name w)) e)
      as (w' & Hrun & Hclock & Hopens & Htrace).
    + lia.
    + intros i Hi. cbn. destruct (Hfail (S i) ltac:(lia)) as (e' & He' & Htr').
      exists e'. rewrite <- Nat.add_succ_r. auto.
    + cbn. now rewrite <- Nat.add_succ_r.
    + exact Hnot.
    + intros i Hi. pose proof (Hin (S i) ltac:(lia)) as HSi.
      cbn [total_latency] in HSi |- *. cbn [clock after_sleep after_open
        log_event advance count_open opens_made create_file_script].
      rewrite Nat2Z.inj_succ in HSi. unfold SLEEP_MS. cbn [total_latency]. lia.
    + exists w'. split; [exact Hrun|].
      cbn [clock after_sleep after_open log_event advance count_open
           opens_made create_file_script trace] in Hclock, Hopens, Htrace.
      split; [|split].
      * rewrite Hclock. cbn [total_latency]. rewrite Nat2Z.inj_succ.
        unfold SLEEP_MS. lia.
      * lia.
      * rewrite Htrace. unfold turns. cbn. now rewrite <- !app_assoc.
Qed.

(** X18: an open that fails with a code other than file-not-found and
    pipe-busy ends the connecting at once also when it comes after
    retries: the error of that open is raised as it is, not as a
    timeout, after as many sleeps as there were transient failures, and
    the mode of the pipe is never set. *)
Theorem establish_gives_up_on_other_error (n fuel : nat)
    (pipe_name : string) (timeout : Z) (w : World) (e : pywin_error) :
  (n < fuel)%nat ->
  (forall i, (i < n)%nat ->
     exists e', outcome (create_file_script w (opens_made w + i)) = inl e'
                /\ (winerror e' = ERROR_FILE_NOT_FOUND
                    \/ winerror e' = ERROR_PIPE_BUSY)) ->
  outcome (create_file_script w (opens_made w + n)) = inl e ->
  ~ (winerror e = ERROR_FILE_NOT_FOUND \/ winerror e = ERROR_PIPE_BUSY) ->
  (forall i, (i < n)%nat ->
     total_latency (create_file_script w) (opens_made w) (S i)
     + 100 * Z.of_nat i <= timeout) ->
  exists w',
    establish_named_pipe_connection fuel pipe_name timeout w
    = Some (Raise (PywinError e), w')
    /\ opens_made w' = (opens_made w + S n)%nat
    /\ trace w' = (trace w ++ turns pipe_name n
                   ++ [EvCreateFile pipe_name;
                       EvLogError (LogCouldNotOpen e)])%list.
Proof.
  intros Hfuel Hfail Hbad Hnot Hin.
  destruct (connect_loop_gives_up n fuel pipe_name (clock w) timeout w e)
    as (w1 & Hrun & _ & Hopens & Htrace); auto.
  - intros i Hi. destruct (Hfail i Hi) as (e' & He' & Hcode).
    exists e'. split; [exact He' | now apply is_transient_codes].
  - destruct (is_transient e) eqn:E; [|reflexivity].
    exfalso. apply Hnot. now apply is_transient_codes.
  - intros i Hi. specialize (Hin i Hi). lia.
  - exists w1. rewrite establish_eq, Hrun. auto.
Qed.

(** X19: the connecting raises two exceptions only: the timeout, which
    wraps the [pywintypes.error] of a transient open failure, and a
    [pywintypes.error] as pywin32 raised it, from an open or from the
    setting of the mode.  It does not pass its errors to the classifier:
    a [PipeDisconnectedException] never comes from connecting, whatever
    the code. *)
Theorem establish_raises_timeout_or_raw_error (fuel : nat)
    (pipe_name : string) (timeout : Z) (w w' : World) (e : exn) :
  establish_named_pipe_connection fuel pipe_name timeout w
  = Some (Raise e, w') ->
  ((exists d e0,
      e = NamedPipeTimeoutError d (PywinError e0)
      /\ (winerror e0 = ERROR_FILE_NOT_FOUND \/ winerror e0 = ERROR_PIPE_BUSY)
      /\ timeout < d)
   \/ (exists e0, e = PywinError e0))
  /\ kind_of e <> Some Disconnected.
Proof.
  rewrite establish_eq.
  destruct (connect_loop fuel pipe_name (clock w) timeout w)
    as [[[h|e1] w1]|] eqn:Hc; [| |discriminate].
  - cbv zeta. destruct (set_state_script w1) as [e0|]; [|discriminate].
    intros H. injection H as <- _.
    split; [right; eauto | discriminate].
  - intros H. injection H as <- _.
    apply connect_loop_raises in Hc.
    destruct Hc as [(d & e0 & -> & Htr & Hd) | (e0 & -> & _)].
    + split; [|discriminate].
      left. exists d, e0. split; [reflexivity|].
      split; [now apply is_transient_codes | exact Hd].
    + split; [right; eauto | discriminate].
Qed.

(** X20: a read that raises has taken the chunks of an unfinished
    message, all well-formed, and then met one of three things: a
    [ReadFile] that raised, whose error went through the classifier; a
    chunk that is not UTF-8, whatever its return code, for a
    [UnicodeDecodeError]; or a well-formed chunk with a return code other
    than [NO_ERROR] and [ERROR_MORE_DATA], for an [IOError]. *)
Theorem read_raises_for_three_reasons (size : Z) (h : HANDLE) (w w' : World)
    (e : exn) :
  read_from_pipe size h w = Some (Raise e, w') ->
  exists chunks last,
    forallb utf8_well_formed chunks = true
    /\ incoming w = (more_data chunks ++ last :: incoming w')%list
    /\ ((exists e0, last = ReadErr e0 /\ e = _handle_pipe_exception e0)
        \/ (exists code data,
              last = ReadOk code data
              /\ utf8_well_formed data = false
              /\ e = UnicodeDecodeError data)
        \/ (exists code data,
              last = ReadOk code data
              /\ utf8_well_formed data = true
              /\ code <> ERROR_MORE_DATA /\ code <> NO_ERROR
              /\ e = IOError
                       ("Got error when reading from the Named Pipe with error code: "
                        ++ str_of_int code))).
Proof.
  unfold read_from_pipe.
  generalize (S (List.length (incoming w))) as fuel.
  generalize (@nil string) as parts.
  intros parts fuel. revert parts w.
  induction fuel as [|fuel IH]; intros parts w H; [discriminate|].
  cbn [read_from_pipe_loop] in H. unfold bind in H.
  rewrite read_step_eq in H.
  destruct (incoming w) as [|o rest] eqn:Ein; [discriminate|].
  cbv zeta in H.
  destruct o as [code data|e0].
  - destruct (utf8_well_formed data) eqn:Hwf.
    + destruct (code =? ERROR_MORE_DATA) eqn:Emore.
      * apply Z.eqb_eq in Emore. subst code.
        apply IH in H. destruct H as (chunks & last & Hall & Hin & Hcase).
        cbn [incoming log_event set_incoming] in Hin.
        exists (data :: chunks), last. split; [|split].
        -- cbn [forallb]. now rewrite Hwf.
        -- cbn [more_data map app]. now rewrite Hin.
        -- exact Hcase.
      * destruct (code =? NO_ERROR) eqn:Eno; [discriminate|].
        injection H as <- <-. exists [], (ReadOk code data).
        split; [reflexivity|]. split; [reflexivity|].
        right. right. exists code, data.
        apply Z.eqb_neq in Emore, Eno. auto.
    + injection H as <- <-. exists [], (ReadOk code data).
      split; [reflexivity|]. split; [reflexivity|].
      right. left. eauto.
  - injection H as <- <-. exists [], (ReadErr e0).
    split; [reflexivity|]. split; [reflexivity|]. left. eauto.
Qed.

(** ** Instances of the properties above *)

Lemma read_returns_message_of_aligned_chunks_witness :
  exists w',
    read_from_pipe 8192 7
      (Worlds.ready (deliver [encode_utf8 Worlds.e_acute; encode_utf8 "!"]))
    = Some (Return (Worlds.e_acute ++ "!"), w').
Proof.
  destruct (read_returns_message_of_aligned_chunks 8192 7
              (Worlds.e_acute ++ "!")
              [encode_utf8 Worlds.e_acute; encode_utf8 "!"] []
              (Worlds.ready
                 (deliver [encode_utf8 Worlds.e_acute; encode_utf8 "!"])))
    as (w' & H & _).
  - discriminate.
  - reflexivity.
  - reflexivity.
  - reflexivity.
  - exists w'. exact H.
Defined.

Lemma read_returns_ascii_message_in_any_chunks_witness :
  exists w',
    read_from_pipe 2 7
      (Worlds.ready
         (deliver [encode_utf8 "h"; encode_utf8 "ell"; encode_utf8 "o"]))
    = Some (Return "hello", w').
Proof.
  destruct (read_returns_ascii_message_in_any_chunks 2 7 "hello"
              [encode_utf8 "h"; encode_utf8 "ell"; encode_utf8 "o"]
              (Worlds.ready
                 (deliver [encode_utf8 "h"; encode_utf8 "ell";
                           encode_utf8 "o"])))
    as (w' & H & _).
  - reflexivity.
  - discriminate.
  - reflexivity.
  - reflexivity.
  - exists w'. exact H.
Defined.

Lemma two_reads_return_two_messages_witness :
  exists w1 w2,
    read_from_pipe 8192 7
      (Worlds.ready (deliver [encode_utf8 "a"; encode_utf8 "b"]
                     ++ deliver [encode_utf8 "c"])%list)
    = Some (Return "ab", w1)
    /\ read_from_pipe 8192 7 w1 = Some (Return "c", w2).
Proof.
  destruct (two_reads_return_two_messages 8192 7
              [encode_utf8 "a"; encode_utf8 "b"] [encode_utf8 "c"]
              (Worlds.ready (deliver [encode_utf8 "a"; encode_utf8 "b"]
                             ++ deliver [encode_utf8 "c"])%list))
    as (w1 & w2 & H1 & H2 & _).
  - discriminate.
  - discriminate.
  - reflexivity.
  - reflexivity.
  - reflexivity.
  - exists w1, w2. split; [exact H1 | exact H2].
Defined.

Lemma read_raises_on_unexpected_return_code_witness :
  raised (read_from_pipe 8192 7
            (Worlds.ready [ReadOk ERROR_MORE_DATA (encode_utf8 "a");
                           ReadOk 995 (encode_utf8 "b")]))
  = Some (IOError
            "Got error when reading from the Named Pipe with error code: 995").
Proof.
  rewrite (read_raises_on_unexpected_return_code 8192 7 [encode_utf8 "a"]
             995 (encode_utf8 "b") []
             (Worlds.ready [ReadOk ERROR_MORE_DATA (encode_utf8 "a");
                            ReadOk 995 (encode_utf8 "b")])).
  - reflexivity.
  - reflexivity.
  - reflexivity.
  - discriminate.
  - discriminate.
  - reflexivity.
Defined.

Lemma read_raises_classified_error_witness :
  raised (read_from_pipe 8192 7
            (Worlds.ready [ReadOk ERROR_MORE_DATA (encode_utf8 "a");
                           ReadErr (Worlds.broken_pipe "ReadFile")]))
  = Some (new_PipeDisconnectedException (Worlds.broken_pipe "ReadFile")).
Proof.
  destruct (read_raises_classified_error 8192 7 [encode_utf8 "a"]
              (Worlds.broken_pipe "ReadFile") []
              (Worlds.ready [ReadOk ERROR_MORE_DATA (encode_utf8 "a");
                             ReadErr (Worlds.broken_pipe "ReadFile")]))
    as (H & Hd & _).
  - reflexivity.
  - reflexivity.
  - rewrite H. cbn [raised]. now rewrite Hd.
Defined.

Lemma read_blocks_on_unfinished_message_witness :
  read_from_pipe 8192 7
    (Worlds.ready [ReadOk ERROR_MORE_DATA (encode_utf8 "a");
                   ReadOk ERROR_MORE_DATA (encode_utf8 "b")])
  = None.
Proof.
  apply (read_blocks_on_unfinished_message 8192 7
           [encode_utf8 "a"; encode_utf8 "b"]).
  - reflexivity.
  - reflexivity.
Defined.

Lemma read_result_is_decoded_message_witness :
  exists chunks,
    chunks <> []
    /\ decode_utf8 (List.concat chunks) = Return "ab".
Proof.
  edestruct (read_result_is_decoded_message 8192 7
               (Worlds.ready (deliver [encode_utf8 "a"; encode_utf8 "b"])))
    as (chunks & Hne & _ & Hdec & _).
  - vm_compute. reflexivity.
  - exists chunks. split; [exact Hne | exact Hdec].
Defined.

Lemma establish_connects_when_server_becomes_ready_witness :
  exists w',
    establish_named_pipe_connection 2 "pipe" 1000 Worlds.late
    = Some (Return 7, w')
    /\ clock w' = 1050.
Proof.
  destruct (establish_connects_when_server_becomes_ready 1 2 "pipe" 1000
              Worlds.late 7) as (w' & H & Hclock & _).
  - lia.
  - intros i Hi. assert (i = 0%nat) by lia. subst i.
    exists Worlds.file_not_found. split; [reflexivity | left; reflexivity].
  - reflexivity.
  - intros i Hi. assert (i = 0%nat) by lia. subst i. cbn. lia.
  - reflexivity.
  - exists w'. split; [exact H | exact Hclock].
Defined.

Lemma establish_ends_within_bounded_opens_witness :
  exists r w',
    establish_named_pipe_connection 12 "pipe" 1000 Worlds.never_ready
    = Some (r, w')
    /\ (opens_made w' <= 12)%nat.
Proof.
  destruct (establish_ends_within_bounded_opens "pipe" 1000
              Worlds.never_ready) as (r & w' & H & Hopens).
  - intros i. cbn. lia.
  - lia.
  - exists r, w'. split; [apply H; vm_compute; lia | exact Hopens].
Defined.

Lemma establish_times_out_after_one_open_witness :
  exists w',
    establish_named_pipe_connection 1 "pipe" (-1) Worlds.never_ready
    = Some (Raise (NamedPipeTimeoutError 0
                     (PywinError Worlds.file_not_found)), w')
    /\ clock w' = 100.
Proof.
  destruct (establish_times_out_after_one_open 0 "pipe" (-1)
              Worlds.never_ready Worlds.file_not_found)
    as (w' & H & _ & Hclock & _).
  - reflexivity.
  - left. reflexivity.
  - cbn. lia.
  - exists w'. split; [exact H | exact Hclock].
Defined.

Lemma send_passes_on_connect_failure_witness :
  exists w1,
    send_named_pipe_request json.dumps json.loads 8192 1 "pipe" 1000
      "GET" "/status" None None Worlds.denied
    = Some (Raise (PywinError Worlds.access_denied), w1).
Proof.
  edestruct (send_passes_on_connect_failure json.dumps json.loads 8192
               1 "pipe" 1000 "GET" "/status" None None Worlds.denied)
    as (H & _).
  - vm_compute. reflexivity.
  - eexists. exact H.
Defined.

Lemma send_closes_when_request_does_not_serialise_witness :
  exists w',
    send_named_pipe_request json.dumps json.loads 8192 1 "pipe" 1000
      "POST" "/run" None (Some [("s", PObject "set")]) (Worlds.ready [])
    = Some (Raise (TypeError "Object of type set is not JSON serializable"),
            w')
    /\ trace w' = [EvCreateFile "pipe"; EvSetNamedPipeHandleState 7;
                   EvClose 7].
Proof.
  edestruct (send_closes_when_request_does_not_serialise json.dumps
               json.loads 8192 1 "pipe" 1000 "POST" "/run" None
               (Some [("s", PObject "set")]) (Worlds.ready []))
    as (H & _).
  - vm_compute. reflexivity.
  - left. vm_compute. reflexivity.
  - eexists. split; [exact H | reflexivity].
Defined.

Lemma send_fails_when_write_fails_witness :
  exists w',
    send_named_pipe_request json.dumps json.loads 8192 1 "pipe" 1000
      "GET" "/status" None None
      (Worlds.fresh (fun _ => mk_open_attempt 0 (inr 7)) None
         (fun _ => Some (Worlds.broken_pipe "WriteFile")) [])
    = Some (Raise (new_PipeDisconnectedException
                     (Worlds.broken_pipe "WriteFile")), w')
    /\ closes 7 (trace w') = 1%nat.
Proof.
  edestruct (send_fails_when_write_fails json.dumps json.loads 8192 1 "pipe"
               1000 "GET" "/status" None None
               (Worlds.fresh (fun _ => mk_open_attempt 0 (inr 7)) None
                  (fun _ => Some (Worlds.broken_pipe "WriteFile")) []))
    as (w' & H & Ht & _ & Hd).
  - vm_compute. reflexivity.
  - vm_compute. reflexivity.
  - vm_compute. reflexivity.
  - reflexivity.
  - exists w'. rewrite <- Hd by reflexivity. split; [exact H|].
    rewrite Ht. reflexivity.
Defined.

Lemma send_fails_when_read_fails_witness :
  exists w',
    send_named_pipe_request json.dumps json.loads 8192 1 "pipe" 1000
      "GET" "/status" None None
      (Worlds.ready [ReadOk ERROR_MORE_DATA (encode_utf8 "{");
                     ReadErr (Worlds.broken_pipe "ReadFile")])
    = Some (Raise (new_PipeDisconnectedException
                     (Worlds.broken_pipe "ReadFile")), w')
    /\ closes 7 (trace w') = 1%nat.
Proof.
  edestruct (send_fails_when_read_fails json.dumps json.loads 8192 1 "pipe"
               1000 "GET" "/status" None None
               (Worlds.ready [ReadOk ERROR_MORE_DATA (encode_utf8 "{");
                              ReadErr (Worlds.broken_pipe "ReadFile")]))
    as (w' & H & Ht & _ & Hd).
  - vm_compute. reflexivity.
  - vm_compute. reflexivity.
  - vm_compute. reflexivity.
  - reflexivity.
  - instantiate (1 := [encode_utf8 "{"]). reflexivity.
  - reflexivity.
  - exists w'. rewrite <- Hd by reflexivity. split; [exact H|].
    rewrite Ht. reflexivity.
Defined.

Lemma send_trace_order_witness :
  exists w',
    send_named_pipe_request json.dumps json.loads 4 1 "pipe" 1000
      "GET" "/status" None None
      (Worlds.ready (message_mode_reads 4 (encode_utf8 (dq "{'ok':true}"))))
    = Some (Return (PDict [("ok", PBool true)]), w')
    /\ exists before evs,
         trace w' = (before ++ evs ++ [EvClose 7])%list
         /\ forallb before_exchange before = true.
Proof.
  eexists. split; [vm_compute; reflexivity|].
  edestruct (send_trace_order json.dumps json.loads 4 1 "pipe" 1000
               "GET" "/status" None None
               (Worlds.ready
                  (message_mode_reads 4 (encode_utf8 (dq "{'ok':true}")))))
    as (_ & before & evs & Ht & Hb & _).
  - vm_compute. reflexivity.
  - vm_compute. reflexivity.
  - exists before, evs. split; [exact Ht | exact Hb].
Defined.

Lemma send_blocks_when_peer_does_not_reply_witness :
  send_named_pipe_request json.dumps json.loads 8192 1 "pipe" 1000
    "GET" "/status" None None (Worlds.ready [])
  = None.
Proof.
  eapply (send_blocks_when_peer_does_not_reply json.dumps json.loads 8192 1
            "pipe" 1000 "GET" "/status" None None (Worlds.ready [])
            _ _ _ _ []).
  - vm_compute. reflexivity.
  - vm_compute. reflexivity.
  - vm_compute. reflexivity.
  - reflexivity.
  - reflexivity.
  - reflexivity.
Defined.

Lemma two_calls_close_their_own_handles_witness :
  exists evs1 evs2,
    closes 7 evs1 = 1%nat /\ closes 8 evs1 = 0%nat
    /\ closes 7 evs2 = 0%nat /\ closes 8 evs2 = 1%nat.
Proof.
  edestruct (two_calls_close_their_own_handles json.dumps json.loads 8192 1
               "pipe" 1000 "GET" "/a" None None "GET" "/b" None None
               (Worlds.fresh
                  (fun n => mk_open_attempt 0 (inr (7 + Z.of_nat n)))
                  None (fun _ => None)
                  (deliver [encode_utf8 "1"] ++ deliver [encode_utf8 "2"])%list))
    as (evs1 & evs2 & Ht1 & Ht2 & H11 & H21 & H12 & H22).
  - vm_compute. reflexivity.
  - vm_compute. reflexivity.
  - vm_compute. reflexivity.
  - vm_compute. reflexivity.
  - discriminate.
  - exists evs1, evs2. auto.
Defined.

Lemma establish_gives_up_on_other_error_witness :
  exists w',
    establish_named_pipe_connection 2 "pipe" 1000
      (Worlds.fresh
         (fun n => match n with
                   | O => mk_open_attempt 10 (inl Worlds.pipe_busy)
                   | _ => mk_open_attempt 0 (inl Worlds.access_denied)
                   end)
         None (fun _ => None) [])
    = Some (Raise (PywinError Worlds.access_denied), w')
    /\ opens_made w' = 2%nat.
Proof.
  destruct (establish_gives_up_on_other_error 1 2 "pipe" 1000
              (Worlds.fresh
                 (fun n => match n with
                           | O => mk_open_attempt 10 (inl Worlds.pipe_busy)
                           | _ => mk_open_attempt 0 (inl Worlds.access_denied)
                           end)
                 None (fun _ => None) [])
              Worlds.access_denied) as (w' & H & Hopens & _).
  - lia.
  - intros i Hi. assert (i = 0%nat) by lia. subst i.
    exists Worlds.pipe_busy. split; [reflexivity | right; reflexivity].
  - reflexivity.
  - cbn. intros [H | H]; discriminate H.
  - intros i Hi. assert (i = 0%nat) by lia. subst i. cbn. lia.
  - exists w'. split; [exact H | exact Hopens].
Defined.

Lemma establish_raises_timeout_or_raw_error_witness :
  kind_of (PywinError (Worlds.not_connected "SetNamedPipeHandleState"))
  <> Some Disconnected.
Proof.
  edestruct (establish_raises_timeout_or_raw_error 1 "pipe" 1000
               Worlds.mode_failure) as (_ & H).
  - vm_compute. reflexivity.
  - exact H.
Defined.

Lemma read_raises_for_three_reasons_witness :
  exists chunks last,
    forallb utf8_well_formed chunks = true
    /\ [ReadOk ERROR_MORE_DATA (encode_utf8 "a"); ReadOk NO_ERROR [xff]]
       = (more_data chunks ++ [last])%list.
Proof.
  edestruct (read_raises_for_three_reasons 8192 7
               (Worlds.ready [ReadOk ERROR_MORE_DATA (encode_utf8 "a");
                              ReadOk NO_ERROR [xff]]))
    as (chunks & last & Hwf & Hin & _).
  - vm_compute. reflexivity.
  - exists chunks, last. split; [exact Hwf | exact Hin].
Defined.
